(** * Hotel maintenance demo: ticket priority and the inventory engine

    A shallow embedding of [src/types.ts], [src/utils.ts] and the command
    layer of [src/AppContext.tsx].

    Conventions of the embedding.
    - A JavaScript [number] holding a quantity is an integer [Z]; on
      integers [Math.floor] and [Math.trunc] are the identity and
      [Number.isFinite] is true.  The one place where the source computes
      with fractions, the age term of [calculatePriority], is kept exact
      in [Q].
    - The number read off an id is an IEEE 754 double, as in the source:
      [nextId] parses, adds one and prints with the rounding of doubles
      ([roundDouble], [numToString]).
    - An ISO date string is the instant it denotes, in milliseconds since
      the epoch ([new Date(s).getTime()]).  [new Date()] is the argument
      [now] of the operation that reads the clock, and the time zone of
      the host is the argument [tz] of the one operation that computes in
      local time, [createPOForPart].
    - A call ends by returning a value or by throwing ([Outcome]); the one
      [throw] the commands can reach is the [RangeError] of
      [toISOString] on an invalid date.
    - An optional field [f?: T] is an [option T]; JavaScript truthiness of
      such a field is written out ([truthyStr], [truthyNum]).
    - The React state ([tickets], [parts], [pos], [movements], [role]) is
      one record [Store].  A command reads the store of the render that
      created it and queues functional updates [setX(prev => ...)], which
      are applied in order: here each command is a function
      [Store -> Result * Store] ([Store -> Outcome * Store] for the one
      that can throw) that reads its argument and threads the updates
      through it. *)

From Stdlib Require Import ZArith QArith Qround Qminmax.
From Stdlib Require Import List String Ascii Bool Lia DecimalString.
From Stdlib Require Import DecimalPos.
Import ListNotations.

Open Scope Z_scope.
Open Scope string_scope.

(** ** src/types.ts *)

Inductive Role := MANAGEMENT | CLEANING | RECEPTION | MAINTENANCE.

Inductive Urgency := LOW | MEDIUM | HIGH.

Inductive Impact := NONE | ANNOYING | BLOCKING.

Inductive TicketStatus :=
  OPEN | IN_PROGRESS | WAITING_PART | VENDOR | RESOLVED | VERIFIED.

Record AuditEvent := mkAudit {
  ev_date : Z;
  ev_action : string;
  ev_user : Role
}.

Inductive PartCategory :=
  | Electrico | Plomeria | HVAC | Cerrajeria | Mobiliario | TVWiFi
  | Consumibles | Otros.

Inductive PartUnit := pza | kit | m_unit | lt | otro.

Record InventoryPart := mkPart {
  part_id : string;
  part_name : string;
  part_category : PartCategory;
  part_unit : PartUnit;
  stockOnHand : Z;
  stockReserved : Z;
  minStock : Z;
  preferredVendor : option string;
  leadTimeDays : option Z;
  location : option string;
  sku : option string
}.

Inductive PartMovementType :=
  | RESERVE | RELEASE | ISSUE | RECEIVE | ADJUST
  | PO_CREATED | PO_SENT | PO_RECEIVED.

Record PartMovement := mkMov {
  mov_id : string;
  mov_partId : string;
  mov_type : PartMovementType;
  mov_qty : Z;
  mov_date : Z;
  mov_user : Role;
  mov_note : option string;
  mov_ticketId : option string;
  mov_poId : option string
}.

Inductive POStatus := DRAFT | ORDERED | RECEIVED | CANCELED.

Record PurchaseOrderItem := mkItem {
  item_partId : string;
  item_partName : string;
  item_qty : Z;
  item_unit : option string
}.

Record PurchaseOrder := mkPO {
  po_id : string;
  po_status : POStatus;
  po_createdAt : Z;
  po_createdBy : Role;
  po_vendor : string;
  po_etaDate : option Z;
  po_items : list PurchaseOrderItem;
  po_notes : option string
}.

Record Ticket := mkTicket {
  t_id : string;
  roomNumber : string;
  isOccupied : bool;
  asset : string;
  issueType : string;
  description : string;
  urgency : Urgency;
  impact : Impact;
  status : TicketStatus;
  createdAt : Z;
  createdBy : Role;
  assignedTo : option string;
  notes : list string;
  history : list AuditEvent;
  needsPart : option bool;
  partId : option string;
  partName : option string;
  partQty : option Z;
  needsVendor : option bool;
  vendorType : option string;
  poId : option string;
  verifiedBy : option string;
  closedAt : option Z;
  priorityScore : Z
}.

(** Strict equality [===] on the enumerations the code compares. *)

Definition Role_eqb (a b : Role) : bool :=
  match a, b with
  | MANAGEMENT, MANAGEMENT | CLEANING, CLEANING
  | RECEPTION, RECEPTION | MAINTENANCE, MAINTENANCE => true
  | _, _ => false
  end.

Definition Urgency_eqb (a b : Urgency) : bool :=
  match a, b with
  | LOW, LOW | MEDIUM, MEDIUM | HIGH, HIGH => true
  | _, _ => false
  end.

Definition Impact_eqb (a b : Impact) : bool :=
  match a, b with
  | NONE, NONE | ANNOYING, ANNOYING | BLOCKING, BLOCKING => true
  | _, _ => false
  end.

Definition TicketStatus_eqb (a b : TicketStatus) : bool :=
  match a, b with
  | OPEN, OPEN | IN_PROGRESS, IN_PROGRESS | WAITING_PART, WAITING_PART
  | VENDOR, VENDOR | RESOLVED, RESOLVED | VERIFIED, VERIFIED => true
  | _, _ => false
  end.

Definition POStatus_eqb (a b : POStatus) : bool :=
  match a, b with
  | DRAFT, DRAFT | ORDERED, ORDERED | RECEIVED, RECEIVED
  | CANCELED, CANCELED => true
  | _, _ => false
  end.

(** JavaScript truthiness of optional strings and numbers, and the
    [x || d] and [x ?? d] idioms built on it. *)

Definition truthyStr (o : option string) : bool :=
  match o with
  | Some s => negb (s =? "")
  | None => false
  end.

Definition truthyNum (o : option Z) : bool :=
  match o with
  | Some n => negb (n =? 0)%Z
  | None => false
  end.

Definition strOr (o : option string) (d : string) : string :=
  match o with
  | Some s => if s =? "" then d else s
  | None => d
  end.

Definition numOr (n d : Z) : Z := if (n =? 0)%Z then d else n.

Definition nullish {A} (o : option A) (d : A) : A :=
  match o with
  | Some a => a
  | None => d
  end.

(** [String(n)] for an integer [n]. *)
Definition showZ (n : Z) : string := NilZero.string_of_int (Z.to_int n).

Definition showUnit (u : PartUnit) : string :=
  match u with
  | pza => "pza" | kit => "kit" | m_unit => "m" | lt => "lt" | otro => "otro"
  end.

(** ** src/utils.ts *)

Module Utils.

(** [Math.round]: the nearest integer, halves going up. *)
Definition Math_round (x : Q) : Z := Qfloor (x + (1 # 2))%Q.

Definition msPerDay : Z := 1000 * 3600 * 24.

Definition daysOpen (now created : Z) : Q :=
  (inject_Z (now - created) / inject_Z msPerDay)%Q.

Definition calculatePriority (now : Z) (ticket : Ticket) : Z :=
  if TicketStatus_eqb (status ticket) RESOLVED
     || TicketStatus_eqb (status ticket) VERIFIED
  then 0
  else
    let score := 0%Q in
    (* Urgency *)
    let score := if Urgency_eqb (urgency ticket) HIGH
                 then (score + 50)%Q else score in
    let score := if Urgency_eqb (urgency ticket) MEDIUM
                 then (score + 30)%Q else score in
    let score := if Urgency_eqb (urgency ticket) LOW
                 then (score + 10)%Q else score in
    (* Impact *)
    let score := if Impact_eqb (impact ticket) BLOCKING
                 then (score + 40)%Q else score in
    let score := if Impact_eqb (impact ticket) ANNOYING
                 then (score + 20)%Q else score in
    (* Occupancy *)
    let score := if isOccupied ticket then (score + 30)%Q else score in
    (* Age (days open), at most 30 points *)
    let d := daysOpen now (createdAt ticket) in
    let score := (score + Qmin (d * 5) 30)%Q in
    Math_round score.

Definition clampNonNeg (n : Z) : Z := Z.max 0 n.

Definition getAvailableStock (part : InventoryPart) : Z :=
  clampNonNeg (stockOnHand part - stockReserved part).

Definition isOutOfStock (part : InventoryPart) : bool :=
  (getAvailableStock part <=? 0)%Z.


End Utils.

(** The priority score as the specification words it: a table of weights
    for urgency, impact and occupancy, the age term [min(daysOpen * 5, 30)]
    with [daysOpen = (now - createdAt) / 1 day] a fraction, and the sum
    rounded.  These definitions stand on their own: they use nothing of
    [Utils]. *)

Definition urgencyPoints (u : Urgency) : Z :=
  match u with HIGH => 50 | MEDIUM => 30 | LOW => 10 end.

Definition impactPoints (i : Impact) : Z :=
  match i with BLOCKING => 40 | ANNOYING => 20 | NONE => 0 end.

Definition occupancyPoints (occ : bool) : Z := if occ then 30 else 0.

Definition specDaysOpen (now created : Z) : Q :=
  (inject_Z (now - created) / 86400000)%Q.

Definition specAgeTerm (now created : Z) : Q :=
  Qmin (specDaysOpen now created * 5)%Q 30%Q.

(** [n] is [x] rounded: the integer nearest to [x], the upper one when [x]
    lies half way between two integers. *)
Definition roundsTo (x : Q) (n : Z) : Prop :=
  (inject_Z n - (1 # 2) <= x /\ x < inject_Z n + (1 # 2))%Q.

Definition specScore (now : Z) (t : Ticket) (n : Z) : Prop :=
  match status t with
  | RESOLVED | VERIFIED => n = 0
  | _ =>
      roundsTo
        (inject_Z (urgencyPoints (urgency t) + impactPoints (impact t)
                   + occupancyPoints (isOccupied t))
         + specAgeTerm now (createdAt t))%Q
        n
  end.

(** The if-chain of [calculatePriority] folded into the table, with the
    rounding and the age of [Utils]; the lemmas on the score go through
    it. *)
Definition ageTerm (now created : Z) : Q :=
  Qmin (Utils.daysOpen now created * 5)%Q 30%Q.

Definition tableScore (now : Z) (st : TicketStatus) (u : Urgency)
    (i : Impact) (occ : bool) (created : Z) : Z :=
  match st with
  | RESOLVED | VERIFIED => 0
  | _ =>
      Utils.Math_round
        (inject_Z (urgencyPoints u + impactPoints i + occupancyPoints occ)
         + ageTerm now created)%Q
  end.

(** ** src/AppContext.tsx: helpers *)

(** [String(id).replace(/\D/g, '')]: the decimal digits of [id], in order. *)

Definition isDigit (c : ascii) : bool :=
  ((48 <=? nat_of_ascii c) && (nat_of_ascii c <=? 57))%nat.

Fixpoint onlyDigits (s : string) : string :=
  match s with
  | EmptyString => EmptyString
  | String c r => if isDigit c then String c (onlyDigits r) else onlyDigits r
  end.

Fixpoint parseDec (ds : string) (acc : Z) : Z :=
  match ds with
  | EmptyString => acc
  | String c r => parseDec r (10 * acc + (Z.of_nat (nat_of_ascii c) - 48))
  end.

(** The numbers of the ids are IEEE 754 doubles.  They are non-negative
    integers here, so a double is the integer it holds, and an operation
    on doubles is the exact operation followed by [roundDouble]: the
    nearest integer with 53 significant bits, the one with the even
    significand when two are as near. *)
Definition roundDouble (n : Z) : Z :=
  let e := Z.log2 n - 52 in
  if (e <=? 0)%Z then n
  else
    let q := n / 2 ^ e in
    let r := n mod 2 ^ e in
    let half := 2 ^ (e - 1) in
    if (r <? half)%Z then q * 2 ^ e
    else if (half <? r)%Z then (q + 1) * 2 ^ e
    else if Z.even q then q * 2 ^ e else (q + 1) * 2 ^ e.

(** [Number.MAX_SAFE_INTEGER], [2^53 - 1]. *)
Definition MAX_SAFE_INTEGER : Z := 9007199254740991.

(** [String(x)] for a double [x] that is a positive integer (ECMAScript's
    [Number::toString]): the decimal numeral with the fewest significant
    digits that reads back as [x], the nearest to [x] among those, written
    out in full below [10^21] and with an exponent from there on. *)

Definition numDigits (x : Z) : nat := String.length (showZ x).

(** The search for the fewest digits: with [k] significant digits the
    candidates are [x] cut after [k] digits and the numeral above it. *)
Fixpoint shortest (x : Z) (n k fuel : nat) : Z :=
  match fuel with
  | O => x
  | S fuel' =>
      let p := 10 ^ Z.of_nat (n - k) in
      let lo := x / p * p in
      let hi := lo + p in
      match (roundDouble lo =? x)%Z, (roundDouble hi =? x)%Z with
      | true, true =>
          if (x - lo <? hi - x)%Z then lo
          else if (hi - x <? x - lo)%Z then hi
          else if Z.even (x / p) then lo else hi
      | true, false => lo
      | false, true => hi
      | false, false => shortest x n (S k) fuel'
      end
  end.

Definition shortestValue (x : Z) : Z :=
  shortest x (numDigits x) 1 (numDigits x).

Fixpoint stripZeros (fuel : nat) (v : Z) : Z :=
  match fuel with
  | O => v
  | S fuel' => if (v mod 10 =? 0)%Z then stripZeros fuel' (v / 10) else v
  end.

Definition numToString (x : Z) : string :=
  let v := shortestValue x in
  if (x <? 10 ^ 21)%Z then showZ v
  else
    let digits := showZ (stripZeros (numDigits v) v) in
    let exponent := showZ (Z.of_nat (numDigits v) - 1) in
    match digits with
    | String d EmptyString => String d ("e+" ++ exponent)
    | String d rest => String d ("." ++ rest ++ "e+" ++ exponent)
    | EmptyString => digits
    end.

(** [parseInt(digits, 10)] when [Number.isFinite] accepts it: the
    numeral, read exactly, rounded to a double; [None] stands for [NaN]
    (no digit at all) and for [Infinity] (a numeral that rounds to
    [2^1024]). *)
Definition idNumber (id : string) : option Z :=
  let ds := onlyDigits id in
  if ds =? "" then None
  else
    let n := roundDouble (parseDec ds 0) in
    if (n <? 2 ^ 1024)%Z then Some n else None.

Definition nextId (prefix : string) (existingIds : list string) (start : Z)
    : string :=
  let max :=
    fold_left
      (fun m id => match idNumber id with
                   | Some n => Z.max m n
                   | None => m
                   end)
      existingIds start in
  prefix ++ numToString (roundDouble (max + 1)).

Definition nextTicketId (tickets : list Ticket) : string :=
  nextId "T-" (map t_id tickets) 1000.

Definition nextMovementId (movs : list PartMovement) : string :=
  nextId "M-" (map mov_id movs) 0.

Definition nextPOId (pos : list PurchaseOrder) : string :=
  nextId "OC-" (map po_id pos) 0.

Definition createAudit (now : Z) (user : Role) (action : string) : AuditEvent :=
  {| ev_date := now; ev_action := action; ev_user := user |}.

(** *** Dates in local time

    The time zone of the host is ECMAScript's [LocalTZA(t, isUTC)]: the
    offset of local time from UTC in milliseconds, at the instant [t]
    when [isUTC] holds and at the local time [t] otherwise. *)
Definition TimeZone := Z -> bool -> Z.

Definition LocalTime (tz : TimeZone) (t : Z) : Z := t + tz t true.

Definition UTC (tz : TimeZone) (t : Z) : Z := t - tz t false.

(** [TimeClip]: a time value lies within 100 000 000 days of the epoch;
    [None] is the invalid date. *)
Definition TimeClip (t : Z) : option Z :=
  if (Z.abs t <=? 8640000000000000)%Z then Some t else None.

(** [d.setDate(d.getDate() + days)] on the valid date [t]: [MakeDay]
    carries a day of the month out of range into the neighbouring months,
    so the local time moves by [days] whole days; the result is brought
    back to UTC with the offset in force at that local time. *)
Definition Date_plusDays (tz : TimeZone) (t days : Z) : option Z :=
  TimeClip (UTC tz (LocalTime tz t + days * 86400000)).

Definition clampNonNeg (n : Z) : Z := Z.max 0 n.

(** A [Partial<Ticket>] object literal: the keys it carries, in order.
    An optional key may be present with the value [undefined]. *)

Inductive TicketField :=
  | F_id (v : string)
  | F_roomNumber (v : string)
  | F_isOccupied (v : bool)
  | F_asset (v : string)
  | F_issueType (v : string)
  | F_description (v : string)
  | F_urgency (v : Urgency)
  | F_impact (v : Impact)
  | F_status (v : TicketStatus)
  | F_createdAt (v : Z)
  | F_createdBy (v : Role)
  | F_assignedTo (v : option string)
  | F_notes (v : list string)
  | F_history (v : list AuditEvent)
  | F_needsPart (v : option bool)
  | F_partId (v : option string)
  | F_partName (v : option string)
  | F_partQty (v : option Z)
  | F_needsVendor (v : option bool)
  | F_vendorType (v : option string)
  | F_poId (v : option string)
  | F_verifiedBy (v : option string)
  | F_closedAt (v : option Z)
  | F_priorityScore (v : Z).

Definition TicketPatch := list TicketField.

Definition setField (t : Ticket) (f : TicketField) : Ticket :=
  let '(mkTicket a b c d e g h i j k l m n o p q r s u w x y z sc) := t in
  match f with
  | F_id v => mkTicket v b c d e g h i j k l m n o p q r s u w x y z sc
  | F_roomNumber v => mkTicket a v c d e g h i j k l m n o p q r s u w x y z sc
  | F_isOccupied v => mkTicket a b v d e g h i j k l m n o p q r s u w x y z sc
  | F_asset v => mkTicket a b c v e g h i j k l m n o p q r s u w x y z sc
  | F_issueType v => mkTicket a b c d v g h i j k l m n o p q r s u w x y z sc
  | F_description v => mkTicket a b c d e v h i j k l m n o p q r s u w x y z sc
  | F_urgency v => mkTicket a b c d e g v i j k l m n o p q r s u w x y z sc
  | F_impact v => mkTicket a b c d e g h v j k l m n o p q r s u w x y z sc
  | F_status v => mkTicket a b c d e g h i v k l m n o p q r s u w x y z sc
  | F_createdAt v => mkTicket a b c d e g h i j v l m n o p q r s u w x y z sc
  | F_createdBy v => mkTicket a b c d e g h i j k v m n o p q r s u w x y z sc
  | F_assignedTo v => mkTicket a b c d e g h i j k l v n o p q r s u w x y z sc
  | F_notes v => mkTicket a b c d e g h i j k l m v o p q r s u w x y z sc
  | F_history v => mkTicket a b c d e g h i j k l m n v p q r s u w x y z sc
  | F_needsPart v => mkTicket a b c d e g h i j k l m n o v q r s u w x y z sc
  | F_partId v => mkTicket a b c d e g h i j k l m n o p v r s u w x y z sc
  | F_partName v => mkTicket a b c d e g h i j k l m n o p q v s u w x y z sc
  | F_partQty v => mkTicket a b c d e g h i j k l m n o p q r v u w x y z sc
  | F_needsVendor v => mkTicket a b c d e g h i j k l m n o p q r s v w x y z sc
  | F_vendorType v => mkTicket a b c d e g h i j k l m n o p q r s u v x y z sc
  | F_poId v => mkTicket a b c d e g h i j k l m n o p q r s u w v y z sc
  | F_verifiedBy v => mkTicket a b c d e g h i j k l m n o p q r s u w x v z sc
  | F_closedAt v => mkTicket a b c d e g h i j k l m n o p q r s u w x y v sc
  | F_priorityScore v =>
      mkTicket a b c d e g h i j k l m n o p q r s u w x y z v
  end.

(** [{ ...t, ...updates }] *)
Definition spread (t : Ticket) (updates : TicketPatch) : Ticket :=
  fold_left setField updates t.

(** ** The provider state *)

Record Store := mkStore {
  role : Role;
  tickets : list Ticket;
  parts : list InventoryPart;
  pos : list PurchaseOrder;
  movements : list PartMovement
}.

Record Permissions := mkPerm {
  canViewInventory : bool;
  canReserve : bool;
  canCreatePO : bool;
  canAdjustStock : bool
}.

Definition permissions (s : Store) : Permissions :=
  {| canViewInventory :=
       Role_eqb (role s) MANAGEMENT || Role_eqb (role s) MAINTENANCE;
     canReserve :=
       Role_eqb (role s) MANAGEMENT || Role_eqb (role s) MAINTENANCE;
     canCreatePO := Role_eqb (role s) MANAGEMENT;
     canAdjustStock := Role_eqb (role s) MANAGEMENT |}.

(** The state setters, applied to a functional update. *)

Definition setRole (r : Role) (s : Store) : Store :=
  mkStore r (tickets s) (parts s) (pos s) (movements s).

Definition setTickets (f : list Ticket -> list Ticket) (s : Store) : Store :=
  mkStore (role s) (f (tickets s)) (parts s) (pos s) (movements s).

Definition setParts (f : list InventoryPart -> list InventoryPart)
    (s : Store) : Store :=
  mkStore (role s) (tickets s) (f (parts s)) (pos s) (movements s).

Definition setPos (f : list PurchaseOrder -> list PurchaseOrder)
    (s : Store) : Store :=
  mkStore (role s) (tickets s) (parts s) (f (pos s)) (movements s).

Definition setMovements (f : list PartMovement -> list PartMovement)
    (s : Store) : Store :=
  mkStore (role s) (tickets s) (parts s) (pos s) (f (movements s)).

(** What a command hands back to its caller. *)
Record Result := mkResult {
  ok : bool;
  message : string;
  res_poId : option string
}.

Definition failure (msg : string) : Result := mkResult false msg None.
Definition success (msg : string) : Result := mkResult true msg None.

(** How a call ends: it returns its result or it throws.  [RangeError]
    is the one [Date.prototype.toISOString] throws on an invalid date. *)
Inductive Exception := RangeError.

Inductive Outcome :=
  | Returns (r : Result)
  | Throws (e : Exception).

Definition succeeded (o : Outcome) : bool :=
  match o with
  | Returns r => ok r
  | Throws _ => false
  end.

(** ** Tickets *)

Definition updateOne (now : Z) (user : Role) (id : string)
    (updates : TicketPatch) (action : string) (t : Ticket) : Ticket :=
  if negb (t_id t =? id) then t
  else
    let updated := spread t updates in
    let updated :=
      setField updated
        (F_history (history updated ++ [createAudit now user action])) in
    setField updated
      (F_priorityScore (Utils.calculatePriority now updated)).

Definition updateTicket (now : Z) (id : string) (updates : TicketPatch)
    (actionDescription : string) (s : Store) : Store :=
  setTickets (map (updateOne now (role s) id updates actionDescription)) s.

Definition updateTicketAs (now : Z) (user : Role) (id : string)
    (updates : TicketPatch) (action : string) (s : Store) : Store :=
  setTickets (map (updateOne now user id updates action)) s.

(** ** Inventory *)

(** The movement data a caller supplies ([Omit<PartMovement, 'id' | 'date' |
    'user'>]); [addMovement] stamps it and puts it at the head of the
    ledger, so the ledger lists the newest movement first. *)
Definition addMovement (now : Z) (partId : string) (type : PartMovementType)
    (qty : Z) (note ticketId poId : option string) (s : Store) : Store :=
  setMovements
    (fun prev =>
       {| mov_id := nextMovementId prev;
          mov_partId := partId;
          mov_type := type;
          mov_qty := qty;
          mov_date := now;
          mov_user := role s;
          mov_note := note;
          mov_ticketId := ticketId;
          mov_poId := poId |} :: prev)
    s.

Definition setStockReserved (p : InventoryPart) (v : Z) : InventoryPart :=
  mkPart (part_id p) (part_name p) (part_category p) (part_unit p)
    (stockOnHand p) v (minStock p) (preferredVendor p) (leadTimeDays p)
    (location p) (sku p).

Definition setStockOnHand (p : InventoryPart) (v : Z) : InventoryPart :=
  mkPart (part_id p) (part_name p) (part_category p) (part_unit p)
    v (stockReserved p) (minStock p) (preferredVendor p) (leadTimeDays p)
    (location p) (sku p).

Definition findTicket (id : string) (s : Store) : option Ticket :=
  find (fun t => t_id t =? id) (tickets s).

Definition findPart (id : string) (s : Store) : option InventoryPart :=
  find (fun p => part_id p =? id) (parts s).

Definition findPO (id : string) (s : Store) : option PurchaseOrder :=
  find (fun p => po_id p =? id) (pos s).

(** [prev.map(p => p.id !== pid ? p : { ...p, stockReserved:
    clampNonNeg(p.stockReserved - qty) })] *)
Definition releaseStock (pid : string) (qty : Z)
    (prev : list InventoryPart) : list InventoryPart :=
  map (fun p =>
         if negb (part_id p =? pid) then p
         else setStockReserved p (clampNonNeg (stockReserved p - qty)))
      prev.

Definition reservePartForTicket (now : Z) (ticketId partId' : string)
    (qty : Z) (s : Store) : Result * Store :=
  if negb (canReserve (permissions s)) then
    (failure "Permiso insuficiente para reservar refacciones.", s)
  else
    let q := Z.max 1 (numOr qty 1) in
    match findTicket ticketId s with
    | None => (failure "Ticket no encontrado.", s)
    | Some ticket =>
      match findPart partId' s with
      | None => (failure "Refacción no encontrada.", s)
      | Some part =>
        let available :=
          clampNonNeg (stockOnHand part - stockReserved part) in
        if (available <? q)%Z then
          (failure ("Stock insuficiente. Disponible: " ++ showZ available
                    ++ ". Requerido: " ++ showZ q ++ "."), s)
        else
          (* release the reservation the ticket already had, if any *)
          let s :=
            match partId ticket, partQty ticket with
            | Some oldId, Some oldQty =>
              if negb (oldId =? "") && negb (oldQty =? 0)%Z && (0 <? oldQty)%Z
              then
                let s := setParts (releaseStock oldId oldQty) s in
                addMovement now oldId RELEASE oldQty
                  (Some "Cambio de refacción / ajuste de reserva (DEMO)")
                  (Some ticketId) None s
              else s
            | _, _ => s
            end in
          (* reserve *)
          let s :=
            setParts
              (map (fun p =>
                      if part_id p =? partId'
                      then setStockReserved p (stockReserved p + q)
                      else p))
              s in
          let s :=
            updateTicket now ticketId
              [F_needsPart (Some true); F_status WAITING_PART;
               F_partId (Some partId'); F_partName (Some (part_name part));
               F_partQty (Some q)]
              ("Reservada refacción: " ++ part_name part
               ++ " (x" ++ showZ q ++ ")")
              s in
          let s :=
            addMovement now partId' RESERVE q
              (Some ("Reserva para ticket " ++ ticketId))
              (Some ticketId) None s in
          (success "Refacción reservada correctamente.", s)
      end
    end.

Definition releaseReservationForTicket (now : Z) (ticketId : string)
    (note : option string) (s : Store) : Result * Store :=
  if negb (canReserve (permissions s)) then
    (failure "Permiso insuficiente para liberar reservas.", s)
  else
    match findTicket ticketId s with
    | None => (failure "Ticket no encontrado.", s)
    | Some ticket =>
      match partId ticket, partQty ticket with
      | Some pid, Some pq =>
        if (pid =? "") || (pq =? 0)%Z then
          (failure "Este ticket no tiene refacción reservada.", s)
        else
          let s := setParts (releaseStock pid pq) s in
          let s :=
            addMovement now pid RELEASE pq
              (Some (strOr note "Liberación de reserva (DEMO)"))
              (Some ticketId) None s in
          (* the part link stays on the ticket, only needsPart is cleared *)
          let s :=
            updateTicket now ticketId [F_needsPart (Some false)]
              "Reserva liberada" s in
          (success "Reserva liberada correctamente.", s)
      | _, _ => (failure "Este ticket no tiene refacción reservada.", s)
      end
    end.

Definition issueReservedPartForTicket (now : Z) (ticketId : string)
    (note : option string) (s : Store) : Result * Store :=
  if negb (canReserve (permissions s)) then
    (failure "Permiso insuficiente para consumir refacciones.", s)
  else
    match findTicket ticketId s with
    | None => (failure "Ticket no encontrado.", s)
    | Some ticket =>
      match partId ticket, partQty ticket with
      | Some pid, Some pq =>
        if (pid =? "") || (pq =? 0)%Z then
          (failure "Este ticket no tiene refacción vinculada.", s)
        else
          match findPart pid s with
          | None => (failure "Refacción no encontrada.", s)
          | Some part =>
            let q := Z.max 1 (numOr pq 1) in
            (* consumption: lowers reserved and lowers on hand *)
            let s :=
              setParts
                (map (fun p =>
                        if negb (part_id p =? pid) then p
                        else
                          setStockOnHand
                            (setStockReserved p
                               (clampNonNeg (stockReserved p - q)))
                            (clampNonNeg (stockOnHand p - q))))
                s in
            let s :=
              addMovement now pid ISSUE q
                (Some (strOr note "Salida a mantenimiento (DEMO)"))
                (Some ticketId) None s in
            let s :=
              updateTicket now ticketId [F_needsPart (Some false)]
                ("Refacción utilizada: " ++ part_name part
                 ++ " (x" ++ showZ q ++ ")")
                s in
            (success "Refacción marcada como consumida.", s)
          end
      | _, _ => (failure "Este ticket no tiene refacción vinculada.", s)
      end
    end.

Record CreatePOParams := mkCreatePO {
  cp_partId : string;
  cp_qty : Z;
  cp_vendor : option string;
  cp_etaDays : option Z;
  cp_ticketId : option string
}.

(** The object literal of the new order calls [eta.toISOString()], which
    throws when [setDate] has left the date invalid; the call comes
    before the first state update. *)
Definition createPOForPart (now : Z) (tz : TimeZone) (params : CreatePOParams)
    (s : Store) : Outcome * Store :=
  if negb (canCreatePO (permissions s)) then
    (Returns (failure "Solo Gerencia puede generar OC (DEMO)."), s)
  else
    match findPart (cp_partId params) s with
    | None => (Returns (failure "Refacción no encontrada."), s)
    | Some part =>
      let q := Z.max 1 (numOr (cp_qty params) 1) in
      let vendor :=
        strOr (cp_vendor params)
          (strOr (preferredVendor part) "Proveedor (DEMO)") in
      let eta :=
        Date_plusDays tz now
          (nullish (cp_etaDays params) (nullish (leadTimeDays part) 3)) in
      match eta with
      | None => (Throws RangeError, s)
      | Some etaDate =>
        let newPO :=
          {| po_id := nextPOId (pos s);
             po_status := ORDERED;
             po_createdAt := now;
             po_createdBy := role s;
             po_vendor := vendor;
             po_etaDate := Some etaDate;
             po_items :=
               [ {| item_partId := part_id part;
                    item_partName := part_name part;
                    item_qty := q;
                    item_unit := Some (showUnit (part_unit part)) |} ];
             po_notes :=
               Some "OC generada en DEMO (no implica compra real)." |}
        in
        let s := setPos (fun prev => newPO :: prev) s in
        let s :=
          addMovement now (part_id part) PO_CREATED q
            (Some ("OC " ++ po_id newPO ++ " creada (DEMO)"))
            (cp_ticketId params) (Some (po_id newPO)) s in
        let s :=
          match cp_ticketId params with
          | Some tid =>
            if tid =? "" then s
            else
              updateTicket now tid [F_poId (Some (po_id newPO))]
                ("OC vinculada: " ++ po_id newPO) s
          | None => s
          end in
        (Returns
           (mkResult true ("OC generada: " ++ po_id newPO)
              (Some (po_id newPO))), s)
      end
    end.

Definition setPOStatus (p : PurchaseOrder) (st : POStatus) : PurchaseOrder :=
  mkPO (po_id p) st (po_createdAt p) (po_createdBy p) (po_vendor p)
    (po_etaDate p) (po_items p) (po_notes p).

(** [po.items.find(i => i.partId === p.id)] *)
Definition itemFor (po : PurchaseOrder) (p : InventoryPart)
    : option PurchaseOrderItem :=
  find (fun i => item_partId i =? part_id p) (po_items po).

Definition receivePO (now : Z) (poId' : string) (s : Store)
    : Result * Store :=
  if negb (canCreatePO (permissions s)) then
    (failure "Solo Gerencia puede recibir OC (DEMO).", s)
  else
    match findPO poId' s with
    | None => (failure "OC no encontrada.", s)
    | Some po =>
      if POStatus_eqb (po_status po) RECEIVED then
        (failure "Esta OC ya fue recibida.", s)
      else
        (* add to stockOnHand *)
        let s :=
          setParts
            (map (fun p =>
                    match itemFor po p with
                    | None => p
                    | Some item =>
                      setStockOnHand p (stockOnHand p + item_qty item)
                    end))
            s in
        (* one movement per item *)
        let s :=
          fold_left
            (fun s item =>
               addMovement now (item_partId item) RECEIVE (item_qty item)
                 (Some ("Recepción OC " ++ po_id po ++ " (DEMO)"))
                 None (Some (po_id po)) s)
            (po_items po) s in
        let s :=
          setPos
            (map (fun p =>
                    if po_id p =? poId' then setPOStatus p RECEIVED else p))
            s in
        let s :=
          addMovement now
            (match po_items po with
             | i :: _ => if item_partId i =? "" then "P-000" else item_partId i
             | [] => "P-000"
             end)
            PO_RECEIVED
            (fold_left (fun acc i => acc + item_qty i) (po_items po) 0)
            (Some ("OC " ++ po_id po ++ " marcada como Recibida (DEMO)"))
            None (Some (po_id po)) s in
        (success ("OC " ++ po_id po ++ " recibida y stock actualizado."), s)
    end.

Record AdjustParams := mkAdjust {
  ad_partId : string;
  ad_delta : Z;
  ad_note : option string
}.

Definition adjustStock (now : Z) (params : AdjustParams) (s : Store)
    : Result * Store :=
  if negb (canAdjustStock (permissions s)) then
    (failure "Solo Gerencia puede ajustar stock (DEMO).", s)
  else
    match findPart (ad_partId params) s with
    | None => (failure "Refacción no encontrada.", s)
    | Some part =>
      let delta := numOr (ad_delta params) 0 in
      if (delta =? 0)%Z then (failure "Delta inválido.", s)
      else
        let s :=
          setParts
            (map (fun p =>
                    if negb (part_id p =? ad_partId params) then p
                    else
                      setStockOnHand p
                        (clampNonNeg (stockOnHand p + delta))))
            s in
        let s :=
          addMovement now (ad_partId params) ADJUST (Z.abs delta)
            (Some (strOr (ad_note params)
                     ("Ajuste de stock " ++ (if (0 <? delta)%Z then "+" else "")
                      ++ showZ delta ++ " (DEMO)")))
            None None s in
        (success "Stock ajustado (DEMO).", s)
    end.

(** ** The command surface

    One constructor per public command of the provider, each with the
    instant at which it runs (and the time zone, where the command reads
    it); [run] replays a script of commands, one after the other, keeping
    the store and dropping the results. *)

Inductive Command :=
  | Reserve (now : Z) (ticketId partId' : string) (qty : Z)
  | Release (now : Z) (ticketId : string) (note : option string)
  | Issue (now : Z) (ticketId : string) (note : option string)
  | CreatePO (now : Z) (tz : TimeZone) (params : CreatePOParams)
  | ReceivePO (now : Z) (poId' : string)
  | AdjustStock (now : Z) (params : AdjustParams).

(** A command without a [throw] on any path returns. *)
Definition returns (x : Result * Store) : Outcome * Store :=
  (Returns (fst x), snd x).

Definition exec (c : Command) (s : Store) : Outcome * Store :=
  match c with
  | Reserve now t p q => returns (reservePartForTicket now t p q s)
  | Release now t n => returns (releaseReservationForTicket now t n s)
  | Issue now t n => returns (issueReservedPartForTicket now t n s)
  | CreatePO now tz ps => createPOForPart now tz ps s
  | ReceivePO now po => returns (receivePO now po s)
  | AdjustStock now ps => returns (adjustStock now ps s)
  end.

Definition step (s : Store) (c : Command) : Store := snd (exec c s).

Definition run (cs : list Command) (s : Store) : Store := fold_left step cs s.

(** ** Predicates on stores and commands *)

(** Both stock counters of every part are non-negative. *)
Definition stockNonNeg (s : Store) : Prop :=
  Forall (fun p => 0 <= stockOnHand p /\ 0 <= stockReserved p) (parts s).

(** Every line of every purchase order carries a non-negative quantity. *)
Definition poQtyNonNeg (s : Store) : Prop :=
  Forall (fun po => Forall (fun i => 0 <= item_qty i) (po_items po)) (pos s).


Definition isReserve (c : Command) : bool :=
  match c with
  | Reserve _ _ _ _ => true
  | _ => false
  end.


(** ** Views of the entities *)


(** What a ledger entry says about stock: its type, part and quantity. *)
Definition movKey (m : PartMovement) : PartMovementType * string * Z :=
  (mov_type m, mov_partId m, mov_qty m).

(** The identity and status of a ticket. *)
Definition ticketKey (t : Ticket) : string * TicketStatus :=
  (t_id t, status t).

(** ** Vocabulary of the statements *)

(** [params.etaDays ?? part.leadTimeDays ?? 3] *)
Definition etaDays (params : CreatePOParams) (part : InventoryPart) : Z :=
  nullish (cp_etaDays params) (nullish (leadTimeDays part) 3).

(** [Math.max(1, Math.floor(qty || 1))] *)
Definition normQty (qty : Z) : Z := Z.max 1 (numOr qty 1).

(** The reservation a ticket already carries, as [reservePartForTicket]
    tests it: [ticket.partId && ticket.partQty && ticket.partQty > 0]. *)
Definition priorReservation (t : Ticket) : option (string * Z) :=
  match partId t, partQty t with
  | Some oldId, Some oldQty =>
      if negb (oldId =? "") && negb (oldQty =? 0)%Z && (0 <? oldQty)%Z
      then Some (oldId, oldQty) else None
  | _, _ => None
  end.

(** The part link a ticket must carry for a release or an issue:
    [ticket.partId] and [ticket.partQty] both truthy. *)
Definition partLink (t : Ticket) : option (string * Z) :=
  match partId t, partQty t with
  | Some pid, Some pq =>
      if (pid =? "") || (pq =? 0)%Z then None else Some (pid, pq)
  | _, _ => None
  end.

(** The updates of the parts inside [reservePartForTicket]: the release
    of the prior reservation, when there is one, and the reservation. *)
Definition releasePrior (t : Ticket) (prev : list InventoryPart)
    : list InventoryPart :=
  match priorReservation t with
  | Some (oldId, oldQty) => releaseStock oldId oldQty prev
  | None => prev
  end.

Definition releasePriorKeys (t : Ticket)
    : list (PartMovementType * string * Z) :=
  match priorReservation t with
  | Some (oldId, oldQty) => [(RELEASE, oldId, oldQty)]
  | None => []
  end.

Definition reserveStock (pid : string) (q : Z) (prev : list InventoryPart)
    : list InventoryPart :=
  map (fun p =>
         if part_id p =? pid
         then setStockReserved p (stockReserved p + q) else p)
      prev.


(** [issueReservedPartForTicket]'s update of the parts: both counters of
    the part go down by [q], each clamped at zero. *)
Definition issueStock (pid : string) (q : Z) (prev : list InventoryPart)
    : list InventoryPart :=
  map (fun p =>
         if negb (part_id p =? pid) then p
         else
           setStockOnHand
             (setStockReserved p (clampNonNeg (stockReserved p - q)))
             (clampNonNeg (stockOnHand p - q)))
      prev.







(** The keys of a ticket patch the statements follow. *)
Inductive TicketKey := K_id | K_status | K_partId | K_partQty | K_other.

Definition keyOf (f : TicketField) : TicketKey :=
  match f with
  | F_id _ => K_id
  | F_status _ => K_status
  | F_partId _ => K_partId
  | F_partQty _ => K_partQty
  | _ => K_other
  end.

(** The field assignment [f] leaves the key [k] of a ticket alone. *)
Definition leaves (k : TicketKey) (f : TicketField) : bool :=
  match keyOf f, k with
  | K_id, K_id | K_status, K_status | K_partId, K_partId
  | K_partQty, K_partQty => false
  | _, _ => true
  end.

(** ** Replaying the ledger

    The ledger keeps the newest movement first, so a replay in the order
    the movements were logged folds from the right.  A replay starts from
    the two counters a part had before the first movement. *)

Definition Stock := (Z * Z)%type.

Definition stockOf (p : InventoryPart) : Stock :=
  (stockOnHand p, stockReserved p).

(** Replay of the entries of part [pid], oldest first, from the stock
    [st], each entry applied with [stp]. *)
Definition replayKeys (stp : PartMovementType -> Z -> Stock -> Stock)
    (pid : string) (keys : list (PartMovementType * string * Z))
    (st : Stock) : Stock :=
  fold_right
    (fun k acc =>
       let '(ty, pid', q) := k in
       if pid =? pid' then stp ty q acc else acc)
    st keys.

(** The replay of the data model's invariant: every movement type has a
    fixed sign on each of the two counters ([sgn], first the stock on
    hand, then the reserved stock), and a movement moves a counter of its
    part by its sign times its quantity. *)
Definition signedStep (sgn : PartMovementType -> Z * Z)
    (ty : PartMovementType) (q : Z) (st : Stock) : Stock :=
  (fst st + fst (sgn ty) * q, snd st + snd (sgn ty) * q).

Definition replaySigned (sgn : PartMovementType -> Z * Z) (pid : string)
    (ledger : list PartMovement) (st : Stock) : Stock :=
  replayKeys (signedStep sgn) pid (map movKey ledger) st.



(** A replay function reproduces the stock of [s], starting from the
    stock of [s0], when it does so part by part. *)
Definition reproduces
    (rp : string -> list PartMovement -> Stock -> Stock) (s0 s : Store)
    : Prop :=
  Forall2
    (fun p0 p =>
       part_id p = part_id p0
       /\ stockOf p = rp (part_id p) (movements s) (stockOf p0))
    (parts s0) (parts s).



(** ** Sample data *)

Definition demoPart (id name : string) (onHand reserved : Z)
    : InventoryPart :=
  mkPart id name Consumibles pza onHand reserved 1 None None None None.

Definition demoTicket (id : string) (st : TicketStatus) : Ticket :=
  mkTicket id "101" false "Plomería" "Gotea" "Gotea el lavabo" LOW NONE st 0
    RECEPTION None [] [] None None None None None None None None None 10.

(** Three tickets, one of them closed, and two parts with nothing
    reserved; no purchase order, an empty ledger. *)
Definition demoStore : Store :=
  mkStore MANAGEMENT
    [demoTicket "T-1001" OPEN; demoTicket "T-1002" IN_PROGRESS;
     demoTicket "T-1003" VERIFIED]
    [demoPart "P-003" "Chapa" 1 0; demoPart "P-005" "Foco LED" 10 0]
    [] [].

(** A store holding an open purchase order with a negative line. *)
Definition negativeLineStore : Store :=
  mkStore MANAGEMENT [] [demoPart "P-005" "Foco LED" 2 0]
    [mkPO "OC-1" ORDERED 0 MANAGEMENT "Proveedor" None
       [mkItem "P-005" "Foco LED" (-5) None] None]
    [].

(** The host in the UTC zone, and a host whose clocks go forward by one
    hour at the instant 100 000 000: an offset of one hour before, of two
    hours from then on (a local time the clocks skip is read with the
    offset before the change). *)
Definition utcZone : TimeZone := fun _ _ => 0.

Definition dstZone : TimeZone :=
  fun t isUTC =>
    if isUTC
    then (if (t <? 100000000)%Z then 3600000 else 7200000)
    else (if (t <? 100000000 + 7200000)%Z then 3600000 else 7200000).


(** A store holding an open purchase order for twelve units. *)
Definition orderedStore : Store :=
  mkStore MANAGEMENT [] [demoPart "P-005" "Foco LED" 2 0]
    [mkPO "OC-1" ORDERED 0 MANAGEMENT "Proveedor" None
       [mkItem "P-005" "Foco LED" 12 None] None]
    [].




(** A day of work without any downward adjustment. *)
Definition workScript : list Command :=
  [Reserve 1 "T-1001" "P-005" 2; Reserve 2 "T-1002" "P-005" 3;
   Issue 3 "T-1001" None; Release 4 "T-1001" None;
   Reserve 5 "T-1002" "P-003" 1;
   CreatePO 6 utcZone (mkCreatePO "P-003" 4 None None (Some "T-1002"));
   ReceivePO 7 "OC-1"; AdjustStock 8 (mkAdjust "P-003" 5 None)].

(** * The rest of the two modules *)

(** ** src/utils.ts: stock flags *)

Definition isLowStock (part : InventoryPart) : bool :=
  let available := Utils.getAvailableStock part in
  let min := minStock part in
  if (min <=? 0)%Z then false
  else (0 <? available)%Z && (available <=? min)%Z.

Definition shouldReorder (part : InventoryPart) : bool :=
  let available := Utils.getAvailableStock part in
  let min := minStock part in
  (available <=? min)%Z.

Record Badge := mkBadge {
  label : string;
  className : string
}.

Definition getStockBadge (part : InventoryPart) : Badge :=
  let available := Utils.getAvailableStock part in
  if (available <=? 0)%Z then
    {| label := "SIN STOCK";
       className := "bg-rose-50 text-rose-700 border border-rose-200" |}
  else if isLowStock part then
    {| label := "BAJO STOCK";
       className := "bg-amber-50 text-amber-700 border border-amber-200" |}
  else
    {| label := "OK";
       className := "bg-emerald-50 text-emerald-700 border border-emerald-200" |}.

(** [ticket.partId || undefined] *)
Definition getPartIdFromTicket (ticket : Ticket) : option string :=
  match partId ticket with
  | Some s => if s =? "" then None else Some s
  | None => None
  end.

(** ** src/AppContext.tsx: creating tickets

    The [data] argument of [buildTicket] and [addTicket] is a ticket
    without some of its keys; the object literal sets those keys after the
    spread, so whatever [data] holds for them is overwritten.  Here [data]
    is a full [Ticket] and the overwriting is explicit. *)

Definition buildTicket (now : Z) (tickets : list Ticket) (data : Ticket)
    (auditUser : Role) (auditAction : string) : Ticket :=
  let t :=
    spread data
      [F_id (nextTicketId tickets); F_createdAt now;
       F_history [createAudit now auditUser auditAction];
       F_priorityScore 0] in
  setField t (F_priorityScore (Utils.calculatePriority now t)).

Definition addTicket (now : Z) (data : Ticket) (s : Store) : Store :=
  let newTicket :=
    spread data
      [F_id (nextTicketId (tickets s)); F_createdAt now; F_status OPEN;
       F_priorityScore 0;
       F_history [createAudit now (role s) "Ticket Creado"]] in
  let newTicket :=
    setField newTicket
      (F_priorityScore (Utils.calculatePriority now newTicket)) in
  setTickets (fun prev => newTicket :: prev) s.

(** ** src/AppContext.tsx: demo scenarios *)

Inductive DemoScenario :=
  GUEST_COMPLAINT | CLEANING_REPORT | BLOCK_PART | BLOCK_VENDOR.

(** [list.sort((a, b) => b.priorityScore - a.priorityScore)]: the stable
    sort by decreasing score, as an insertion sort that keeps the earlier
    of two tickets with the same score in front. *)
Fixpoint insertByScore (t : Ticket) (l : list Ticket) : list Ticket :=
  match l with
  | [] => [t]
  | x :: r =>
      if (priorityScore t <? priorityScore x)%Z
      then x :: insertByScore t r
      else t :: x :: r
  end.

Definition sortByScore (l : list Ticket) : list Ticket :=
  fold_right insertByScore [] l.

Definition blockEligible (t : Ticket) : bool :=
  TicketStatus_eqb (status t) OPEN
  || TicketStatus_eqb (status t) IN_PROGRESS.

Definition pickForBlock (s : Store) : option Ticket :=
  let actionable :=
    sortByScore
      (filter (fun t => negb (TicketStatus_eqb (status t) VERIFIED))
         (tickets s)) in
  find blockEligible actionable.

(** The fields a scenario gives to [buildTicket]; the keys [buildTicket]
    sets itself are left at a neutral value. *)
Definition scenarioData (roomNumber : string) (isOccupied : bool)
    (asset issueType description : string) (urgency : Urgency)
    (impact : Impact) (status : TicketStatus) (createdBy : Role)
    (notes : list string) (needsPart : bool) (partId partName : option string)
    (partQty : option Z) (needsVendor : bool) (vendorType : option string)
    : Ticket :=
  mkTicket "" roomNumber isOccupied asset issueType description urgency
    impact status 0 createdBy None notes [] (Some needsPart) partId partName
    partQty (Some needsVendor) vendorType None None None 0.

Definition runScenario (now : Z) (scenario : DemoScenario) (s : Store)
    : option string * Store :=
  let pick := pickForBlock s in
  match scenario with
  | GUEST_COMPLAINT =>
      let t :=
        buildTicket now (tickets s)
          (scenarioData "105" true "Aire Acondicionado" "No enciende"
             "Simulación DEMO: Huésped reporta que el aire no responde y no puede descansar."
             HIGH BLOCKING OPEN RECEPTION [] false None None None false None)
          RECEPTION "Ticket creado por Recepción (DEMO)" in
      (Some (t_id t), setTickets (fun prev => t :: prev) s)
  | CLEANING_REPORT =>
      let t :=
        buildTicket now (tickets s)
          (scenarioData "112" false "Plomería" "Gotea"
             "Simulación DEMO: Limpieza detecta goteo en lavabo durante preparación de habitación."
             MEDIUM ANNOYING OPEN CLEANING [] false None None None false None)
          CLEANING "Ticket creado por Limpieza (DEMO)" in
      (Some (t_id t), setTickets (fun prev => t :: prev) s)
  | BLOCK_PART =>
      let id := option_map t_id pick in
      let lowStockPart :=
        match find (fun p => (stockOnHand p - stockReserved p <=? 0)%Z)
                (parts s) with
        | Some p => Some p
        | None => hd_error (parts s)
        end in
      match (if truthyStr id then id else None), lowStockPart with
      | Some id, Some lowStockPart =>
          (Some id,
           updateTicketAs now MAINTENANCE id
             [F_status WAITING_PART; F_needsPart (Some true);
              F_partId (Some (part_id lowStockPart));
              F_partName (Some (part_name lowStockPart));
              F_partQty (Some 1)]
             ("Marcado espera refacción: " ++ part_name lowStockPart
              ++ " (DEMO)")
             s)
      | _, _ =>
          let t :=
            buildTicket now (tickets s)
              (scenarioData "101" true "Eléctrico" "Roto/Dañado"
                 "Simulación DEMO: Se requiere refacción para completar la reparación."
                 HIGH BLOCKING WAITING_PART MAINTENANCE
                 ["Simulación DEMO: identificado componente a reemplazar."]
                 true (option_map part_id (hd_error (parts s)))
                 (option_map part_name (hd_error (parts s))) (Some 1)
                 false None)
              MAINTENANCE
              "Ticket creado y marcado espera refacción (DEMO)" in
          (Some (t_id t), setTickets (fun prev => t :: prev) s)
      end
  | BLOCK_VENDOR =>
      let id := option_map t_id pick in
      match (if truthyStr id then id else None) with
      | Some id =>
          (Some id,
           updateTicketAs now MAINTENANCE id
             [F_status VENDOR; F_needsVendor (Some true);
              F_vendorType (Some "Proveedor DEMO (IT / HVAC / Cerrajería)")]
             "Marcado para proveedor (DEMO)" s)
      | None =>
          let t :=
            buildTicket now (tickets s)
              (scenarioData "120" false "TV/WiFi" "Sin señal"
                 "Simulación DEMO: caso escalado a proveedor externo."
                 LOW ANNOYING VENDOR MAINTENANCE
                 ["Simulación DEMO: reinicio no resuelve, se agenda visita."]
                 false None None None true (Some "Proveedor DEMO"))
              MAINTENANCE "Ticket creado y escalado a proveedor (DEMO)" in
          (Some (t_id t), setTickets (fun prev => t :: prev) s)
      end
  end.

(** ** Everything that writes tickets

    The six commands and the ticket operations of the provider
    ([resetDemoData] aside, which replaces the store), and scripts of
    them. *)

Inductive Action :=
  | Cmd (c : Command)
  | AddTicket (now : Z) (data : Ticket)
  | UpdateTicket (now : Z) (id : string) (updates : TicketPatch)
      (actionDescription : string)
  | RunScenario (now : Z) (scenario : DemoScenario).

Definition act (s : Store) (a : Action) : Store :=
  match a with
  | Cmd c => step s c
  | AddTicket now data => addTicket now data s
  | UpdateTicket now id u d => updateTicket now id u d s
  | RunScenario now sc => snd (runScenario now sc s)
  end.

Definition perform (script : list Action) (s : Store) : Store :=
  fold_left act script s.

(** The action [a], run on the store [s], spares the status of the
    tickets named [tid]: it is not a reservation for [tid] that succeeds,
    and not a patch that carries an [id] key or that names [tid] with a
    [status] key. *)
Definition spares (tid : string) (s : Store) (a : Action) : Prop :=
  match a with
  | Cmd (Reserve now t p q) =>
      t = tid -> ok (fst (reservePartForTicket now t p q s)) = false
  | UpdateTicket _ id u _ =>
      forallb (leaves K_id) u = true
      /\ (id = tid -> forallb (leaves K_status) u = true)
  | _ => True
  end.

Fixpoint sparesAll (tid : string) (s : Store) (script : list Action)
    : Prop :=
  match script with
  | [] => True
  | a :: rest => spares tid s a /\ sparesAll tid (act s a) rest
  end.

(** There is a ticket named [tid], and every ticket of that name is
    VERIFIED. *)
Definition verifiedAt (tid : string) (l : list Ticket) : Prop :=
  In tid (map t_id l)
  /\ Forall (fun t => t_id t = tid -> status t = VERIFIED) l.

(** A day on which the VERIFIED ticket T-1003 is named by a reservation
    that fails and by a patch of its notes, while other tickets are
    reserved for, created and escalated. *)
Definition mixedScript : list Action :=
  [Cmd (Reserve 1 "T-1001" "P-005" 2);
   Cmd (Reserve 2 "T-1003" "P-404" 1);
   AddTicket 3 (demoTicket "" VERIFIED);
   RunScenario 4 BLOCK_VENDOR;
   UpdateTicket 5 "T-1003" [F_notes ["Revisado"]] "Nota";
   Cmd (CreatePO 6 utcZone (mkCreatePO "P-005" 12 None None (Some "T-1003")));
   Cmd (Issue 7 "T-1001" None)].

(** ** Vocabulary of the further statements *)

(** The ids whose number is below [bound]; an id without a number passes. *)
Definition idsBelow (bound : Z) (ids : list string) : Prop :=
  Forall
    (fun id => match idNumber id with
               | Some n => n < bound
               | None => True
               end)
    ids.

(** The ids the commands continue, those of the purchase orders and of
    the movements, carry safe integers below the largest one, so that the
    number after them is a safe integer too. *)
Definition idsSafe (s : Store) : Prop :=
  idsBelow MAX_SAFE_INTEGER (map po_id (pos s))
  /\ idsBelow MAX_SAFE_INTEGER (map mov_id (movements s)).

(** The value [parseDec] reads off the digits of a decimal numeral. *)
Fixpoint uintValue (d : Decimal.uint) (acc : Z) : Z :=
  match d with
  | Decimal.Nil => acc
  | Decimal.D0 l => uintValue l (10 * acc)
  | Decimal.D1 l => uintValue l (10 * acc + 1)
  | Decimal.D2 l => uintValue l (10 * acc + 2)
  | Decimal.D3 l => uintValue l (10 * acc + 3)
  | Decimal.D4 l => uintValue l (10 * acc + 4)
  | Decimal.D5 l => uintValue l (10 * acc + 5)
  | Decimal.D6 l => uintValue l (10 * acc + 6)
  | Decimal.D7 l => uintValue l (10 * acc + 7)
  | Decimal.D8 l => uintValue l (10 * acc + 8)
  | Decimal.D9 l => uintValue l (10 * acc + 9)
  end.

(** The largest number [nextId] finds in the ids, [start] included. *)
Definition maxIdNumber (ids : list string) (start : Z) : Z :=
  fold_left
    (fun m id => match idNumber id with
                 | Some n => Z.max m n
                 | None => m
                 end)
    ids start.

(** The ledger [l] is the ledger [old] with entries put on top one by
    one, each with the id [nextMovementId] gives it. *)
Inductive Logged (old : list PartMovement) : list PartMovement -> Prop :=
  | Logged_same : Logged old old
  | Logged_more m l :
      Logged old l -> mov_id m = nextMovementId l -> Logged old (m :: l).

(** No two tickets, no two purchase orders and no two movements share
    an id. *)
Definition idsUnique (s : Store) : Prop :=
  NoDup (map t_id (tickets s))
  /\ NoDup (map po_id (pos s))
  /\ NoDup (map mov_id (movements s)).

(** The capability a command asks for, by role. *)
Definition allowed (r : Role) (c : Command) : bool :=
  match c with
  | Reserve _ _ _ _ | Release _ _ _ | Issue _ _ _ =>
      match r with
      | MANAGEMENT | MAINTENANCE => true
      | _ => false
      end
  | CreatePO _ _ _ | ReceivePO _ _ | AdjustStock _ _ =>
      match r with
      | MANAGEMENT => true
      | _ => false
      end
  end.

(** A part with its two counters blanked: what the commands never
    change. *)
Definition partStatic (p : InventoryPart) : InventoryPart :=
  setStockOnHand (setStockReserved p 0) 0.

(** The ticket a command names, if it names one. *)
Definition ticketOf (c : Command) : option string :=
  match c with
  | Reserve _ t _ _ | Release _ t _ | Issue _ t _ => Some t
  | CreatePO _ _ ps => cp_ticketId ps
  | ReceivePO _ _ | AdjustStock _ _ => None
  end.

(** Quantities are positive everywhere: in the ledger, on the tickets
    that carry one, and on the lines of the purchase orders, which have
    at least one line each. *)
Definition partQtyPositive (t : Ticket) : Prop :=
  match partQty t with
  | Some q => 0 < q
  | None => True
  end.

Definition poLinesPositive (po : PurchaseOrder) : Prop :=
  po_items po <> [] /\ Forall (fun i => 0 < item_qty i) (po_items po).

Definition qtyPositive (s : Store) : Prop :=
  Forall (fun m => 0 < mov_qty m) (movements s)
  /\ Forall partQtyPositive (tickets s)
  /\ Forall poLinesPositive (pos s).



(** Which commands can move which part of the store. *)
Definition movesOnHand (c : Command) : bool :=
  match c with
  | Issue _ _ _ | ReceivePO _ _ | AdjustStock _ _ => true
  | _ => false
  end.

Definition movesReserved (c : Command) : bool :=
  match c with
  | Reserve _ _ _ _ | Release _ _ _ | Issue _ _ _ => true
  | _ => false
  end.

Definition movesOrders (c : Command) : bool :=
  match c with
  | CreatePO _ _ _ | ReceivePO _ _ => true
  | _ => false
  end.

(** A list of tickets in decreasing order of score. *)
Inductive Decreasing : list Ticket -> Prop :=
  | Decreasing_nil : Decreasing []
  | Decreasing_cons t l :
      (forall x, In x l -> priorityScore x <= priorityScore t) ->
      Decreasing l -> Decreasing (t :: l).

(** * Properties *)

(** ** Proof tools *)

(** Split on the next guard of a command body. *)
Ltac case_split :=
  match goal with
  | |- context [if ?b then _ else _] => destruct b eqn:?
  | |- context [match ?x with Some _ => _ | None => _ end] => destruct x eqn:?
  end.

(** Open the six commands. *)
Ltac unfold_commands :=
  unfold returns, reservePartForTicket, releaseReservationForTicket,
    issueReservedPartForTicket, createPOForPart, receivePO, adjustStock.

(** Push the projections of the store through the state setters. *)
Ltac store_simpl :=
  cbn [fst snd role tickets parts pos movements setParts addMovement
       setMovements updateTicket setTickets setPos].

Example nextId_ex : nextId "M-" ["M-2"; "x"; "M-10"; "OC-007"] 0 = "M-11".
Proof. reflexivity. Qed.

(** ** Priority score *)

Lemma Math_round_comp (x y : Q) :
  (x == y)%Q -> Utils.Math_round x = Utils.Math_round y.
Proof.
  intros E. unfold Utils.Math_round. apply Qfloor_comp. rewrite E. reflexivity.
Qed.

(** The if-chain adds up to the table. *)
Lemma calculatePriority_table now t :
  Utils.calculatePriority now t
  = tableScore now (status t) (urgency t) (impact t) (isOccupied t)
      (createdAt t).
Proof.
  unfold Utils.calculatePriority, tableScore, ageTerm.
  destruct (status t), (urgency t), (impact t), (isOccupied t); cbn;
    try reflexivity; apply Math_round_comp; ring.
Qed.

(** [Math.round] gives the rounded value, and there is only one. *)
Lemma roundsTo_Math_round (x : Q) (n : Z) :
  roundsTo x n <-> Utils.Math_round x = n.
Proof.
  unfold roundsTo, Utils.Math_round.
  pose proof (Qfloor_le (x + (1 # 2))%Q) as Hl.
  pose proof (Qlt_floor (x + (1 # 2))%Q) as Hu.
  set (f := Qfloor (x + (1 # 2))%Q) in *.
  rewrite inject_Z_plus in Hu.
  split.
  - intros [H1 H2].
    assert (A : (inject_Z n < inject_Z (f + 1))%Q).
    { rewrite inject_Z_plus.
      apply Qle_lt_trans with (x + (1 # 2))%Q; [|exact Hu].
      apply Qplus_le_l with (z := (- (1 # 2))%Q). ring_simplify.
      ring_simplify in H1. exact H1. }
    assert (B : (inject_Z f < inject_Z (n + 1))%Q).
    { rewrite inject_Z_plus.
      apply Qle_lt_trans with (x + (1 # 2))%Q; [exact Hl|].
      apply Qplus_lt_l with (z := (- (1 # 2))%Q). ring_simplify.
      ring_simplify in H2. exact H2. }
    rewrite <- Zlt_Qlt in A, B. lia.
  - intros <-. split.
    + apply Qplus_le_l with (z := (1 # 2)%Q). ring_simplify.
      ring_simplify in Hl. exact Hl.
    + apply Qplus_lt_l with (z := (1 # 2)%Q). ring_simplify.
      ring_simplify in Hu. exact Hu.
Qed.

(** C3. The score [calculatePriority] gives is the score of the
    specification, and no other number is: 0 for a RESOLVED or VERIFIED
    ticket, and otherwise the sum of the urgency, impact and occupancy
    weights and of the age term [min(daysOpen * 5, 30)], with
    [daysOpen = (now - createdAt) / 86 400 000 ms] a fraction, rounded to
    the nearest integer (a half goes up).  So the score is a function of
    the ticket's status, urgency, impact, occupancy and creation instant
    and of the evaluation instant only. *)
Theorem calculatePriority_spec (now : Z) (t : Ticket) (n : Z) :
  specScore now t n <-> Utils.calculatePriority now t = n.
Proof.
  rewrite calculatePriority_table. unfold specScore, tableScore.
  assert (E : specAgeTerm now (createdAt t) = ageTerm now (createdAt t))
    by reflexivity.
  rewrite E.
  destruct (status t); try apply roundsTo_Math_round;
    split; intros H; symmetry; exact H.
Qed.

Lemma calculatePriority_spec_witness :
  Utils.calculatePriority 8640000 (demoTicket "T-1" OPEN) = 11.
Proof.
  apply (proj1 (calculatePriority_spec 8640000 (demoTicket "T-1" OPEN) 11)).
  unfold specScore, roundsTo, specAgeTerm, specDaysOpen. cbn.
  split; [apply Qle_bool_iff | apply Qlt_alt]; reflexivity.
Defined.

(** The rounding in integers: an integer part of the score passes through
    [Math.round], and the rounded age term is an integer quotient. *)

Lemma Math_round_shift (b : Z) (x : Q) :
  Utils.Math_round (inject_Z b + x) = b + Utils.Math_round x.
Proof.
  unfold Utils.Math_round.
  assert (E : (inject_Z b + x + (1 # 2) == x + (1 # 2) + inject_Z b)%Q) by ring.
  rewrite (Qfloor_comp _ _ E).
  pose proof (Qfloor_le (x + (1#2))%Q) as Hl.
  pose proof (Qlt_floor (x + (1#2))%Q) as Hu.
  set (f := Qfloor (x + (1#2))%Q) in *.
  assert (H1 : (inject_Z (f + b) <= x + (1#2) + inject_Z b)%Q).
  { rewrite inject_Z_plus. apply Qplus_le_l. exact Hl. }
  assert (H2 : (x + (1#2) + inject_Z b < inject_Z (f + b + 1))%Q).
  { replace (f + b + 1) with ((f + 1) + b) by lia. rewrite inject_Z_plus.
    apply Qplus_lt_l. exact Hu. }
  pose proof (Qfloor_le (x + (1#2) + inject_Z b)%Q) as Hl'.
  pose proof (Qlt_floor (x + (1#2) + inject_Z b)%Q) as Hu'.
  set (g := Qfloor (x + (1#2) + inject_Z b)%Q) in *.
  assert (A : (inject_Z (f + b) < inject_Z (g + 1))%Q)
    by (eapply Qle_lt_trans; eassumption).
  assert (B : (inject_Z g < inject_Z (f + b + 1))%Q)
    by (eapply Qle_lt_trans; eassumption).
  rewrite <- Zlt_Qlt in A, B. lia.
Qed.

Lemma ageTerm_rounded (now created : Z) :
  Utils.Math_round (ageTerm now created)
  = Z.min 30 ((10 * (now - created) + Utils.msPerDay) / (2 * Utils.msPerDay)).
Proof.
  unfold ageTerm, Utils.daysOpen, Utils.Math_round.
  set (a := now - created).
  change Utils.msPerDay with 86400000.
  assert (Hfrac :
            (inject_Z a / inject_Z 86400000 * 5 + (1 # 2)
             == inject_Z (10 * a + 86400000) / inject_Z (2 * 86400000))%Q).
  { rewrite inject_Z_plus, inject_Z_mult.
    change (inject_Z 86400000) with (86400000 # 1)%Q.
    change (inject_Z (2 * 86400000)) with (172800000 # 1)%Q.
    change (inject_Z 10) with (10 # 1)%Q. field. }
  assert (Hcmp : (inject_Z a / inject_Z 86400000 * 5 < 30)%Q <-> a < 518400000).
  { unfold Qlt, Qdiv, Qmult, Qinv, inject_Z; cbn. lia. }
  destruct (Q.min_spec (inject_Z a / inject_Z 86400000 * 5) 30)
    as [[Hlt E]|[Hle E]].
  - apply Hcmp in Hlt.
    assert (E' :
              (Qmin (inject_Z a / inject_Z 86400000 * 5) 30 + (1 # 2)
               == inject_Z (10 * a + 86400000) / inject_Z (2 * 86400000))%Q)
      by (rewrite E; exact Hfrac).
    rewrite (Qfloor_comp _ _ E'), <- Zdiv_Qdiv.
    assert ((10 * a + 86400000) / (2 * 86400000) < 31).
    { apply Z.div_lt_upper_bound; lia. }
    lia.
  - assert (Hge : 518400000 <= a).
    { destruct (Z_lt_le_dec a 518400000) as [H|H]; [|exact H].
      apply Hcmp in H. exfalso. apply (Qlt_not_le _ _ H). exact Hle. }
    assert (E' : (Qmin (inject_Z a / inject_Z 86400000 * 5) 30 + (1 # 2)
                  == 61 # 2)%Q) by (rewrite E; reflexivity).
    rewrite (Qfloor_comp _ _ E').
    assert (30 <= (10 * a + 86400000) / (2 * 86400000)).
    { apply Z.div_le_lower_bound; lia. }
    change (Qfloor (61 # 2)) with 30. lia.
Qed.

Lemma tableScore_integer (now : Z) (st : TicketStatus) (u : Urgency)
    (i : Impact) (occ : bool) (created : Z) :
  tableScore now st u i occ created
  = match st with
    | RESOLVED | VERIFIED => 0
    | _ =>
        urgencyPoints u + impactPoints i + occupancyPoints occ
        + Z.min 30
            ((10 * (now - created) + Utils.msPerDay) / (2 * Utils.msPerDay))
    end.
Proof.
  unfold tableScore.
  destruct st; try reflexivity;
    rewrite Math_round_shift, ageTerm_rounded; reflexivity.
Qed.

(** One day old, low urgency: 10 + 5; a tenth of a day gives the half
    that rounds up, a millisecond less rounds down. *)
Example priority_one_day :
  Utils.calculatePriority 86400000 (demoTicket "T-1" OPEN) = 15.
Proof. reflexivity. Qed.

Example priority_half :
  Utils.calculatePriority 8640000 (demoTicket "T-1" OPEN) = 11
  /\ Utils.calculatePriority 8639999 (demoTicket "T-1" OPEN) = 10.
Proof. split; reflexivity. Qed.

(** ** Failures leave the store alone *)

(** C6, as the code has it.  A command that returns a result with
    [ok = false] hands back the store it was given: tickets, parts,
    movements and purchase orders are untouched.  Not every failure is
    such a result: [createPOForPart] throws a [RangeError] exactly when
    its guards pass and the estimated date falls out of the range of
    dates, and then too the store is untouched; nothing else throws. *)
Theorem failure_leaves_store (c : Command) (s : Store) :
  (forall r,
     fst (exec c s) = Returns r -> ok r = false -> snd (exec c s) = s)
  /\ (forall e,
        fst (exec c s) = Throws e ->
        snd (exec c s) = s
        /\ exists now tz params part,
             c = CreatePO now tz params
             /\ canCreatePO (permissions s) = true
             /\ findPart (cp_partId params) s = Some part
             /\ Date_plusDays tz now (etaDays params part) = None)
  /\ (forall now tz params part,
        c = CreatePO now tz params ->
        canCreatePO (permissions s) = true ->
        findPart (cp_partId params) s = Some part ->
        Date_plusDays tz now (etaDays params part) = None ->
        fst (exec c s) = Throws RangeError).
Proof.
  split; [|split].
  - intros r. destruct c; cbn [exec]; unfold_commands;
      repeat case_split; cbn [fst snd]; intros Hr Hok;
      first [ discriminate Hr
            | injection Hr as <-;
              first [reflexivity | discriminate Hok] ].
  - intros e He. destruct c; try discriminate He. cbn [exec] in *.
    unfold createPOForPart in *. unfold etaDays.
    destruct (canCreatePO (permissions s)) eqn:Hperm;
      [|discriminate He]. cbn [negb] in *.
    destruct (findPart (cp_partId params) s) as [part|] eqn:Hp;
      [|discriminate He].
    destruct (Date_plusDays tz now _) eqn:Heta; [discriminate He|].
    split; [reflexivity|]. exists now, tz, params, part. auto.
  - intros now tz params part -> Hperm Hp Heta. cbn [exec].
    unfold createPOForPart. unfold etaDays in Heta.
    rewrite Hperm, Hp, Heta. reflexivity.
Qed.

Lemma failure_leaves_store_witness :
  snd (exec (Reserve 5 "T-9999" "P-003" 1) demoStore) = demoStore.
Proof.
  apply (proj1 (failure_leaves_store (Reserve 5 "T-9999" "P-003" 1) demoStore)
           (failure "Ticket no encontrado."));
    reflexivity.
Defined.

(** C6, as stated, fails: with an estimated date two hundred million
    days ahead, [createPOForPart] passes its guards and throws. *)
Lemma failure_thrown_counterexample :
  exec (CreatePO 1 utcZone
          (mkCreatePO "P-005" 1 None (Some 200000000) None))
       demoStore
  = (Throws RangeError, demoStore).
Proof. reflexivity. Qed.

(** ** Stock never goes negative *)

Lemma Forall_map_pres {A} (P : A -> Prop) (f : A -> A) (l : list A) :
  (forall a, In a l -> P a -> P (f a)) -> Forall P l -> Forall P (map f l).
Proof.
  intros Hf Hl. rewrite Forall_forall in *. intros y Hy.
  apply in_map_iff in Hy as (a & <- & Ha). auto.
Qed.

(** Logging the receptions of a purchase order touches the ledger only. *)
Lemma receive_movements_frame now po items s :
  let s' := fold_left
            (fun s item =>
               addMovement now (item_partId item) RECEIVE (item_qty item)
                 (Some ("Recepción OC " ++ po_id po ++ " (DEMO)"))
                 None (Some (po_id po)) s) items s in
  role s' = role s /\ tickets s' = tickets s
  /\ parts s' = parts s /\ pos s' = pos s.
Proof.
  revert s; induction items as [|i items IH]; intros s; cbn; auto.
  destruct (IH (addMovement now (item_partId i) RECEIVE (item_qty i)
                 (Some ("Recepción OC " ++ po_id po ++ " (DEMO)"))
                 None (Some (po_id po)) s)) as (A & B & C & D).
  cbn in *. auto.
Qed.

Lemma step_stockNonNeg c s :
  poQtyNonNeg s -> stockNonNeg s -> stockNonNeg (step s c).
Proof.
  intros Hpo Hs. unfold step.
  destruct c; cbn [exec]; unfold_commands;
    repeat case_split; cbn [fst snd]; try assumption; unfold stockNonNeg in *.
  all: store_simpl; unfold releaseStock.
  all: try (rewrite (proj1 (proj2 (proj2 (receive_movements_frame _ _ _ _))));
            store_simpl).
  all: repeat (apply Forall_map_pres; [intros q _ [H1 H2]|]); try assumption.
  all: repeat case_split;
    cbn [stockOnHand stockReserved setStockOnHand setStockReserved];
    unfold clampNonNeg; try lia.
  apply find_some in Heqo as [Hin _].
  apply find_some in Heqo0 as [Hit _].
  unfold poQtyNonNeg in Hpo. rewrite Forall_forall in Hpo.
  specialize (Hpo _ Hin). rewrite Forall_forall in Hpo.
  specialize (Hpo _ Hit). lia.
Qed.

(** A property of the lines of every purchase order survives a command
    as soon as it holds of the single line [createPOForPart] writes. *)
Lemma step_pos_items (Q : list PurchaseOrderItem -> Prop) c s :
  (forall i, 1 <= item_qty i -> Q [i]) ->
  Forall (fun po => Q (po_items po)) (pos s) ->
  Forall (fun po => Q (po_items po)) (pos (step s c)).
Proof.
  intros HQ Hpo. unfold step.
  destruct c; cbn [exec]; unfold_commands;
    repeat case_split; cbn [fst snd]; try assumption.
  all: store_simpl.
  all: try (rewrite (proj2 (proj2 (proj2 (receive_movements_frame _ _ _ _))));
            store_simpl).
  all: try (constructor; [cbn [po_items]; apply HQ; cbn; lia | assumption]).
  apply Forall_map_pres; [|assumption].
  intros po _ H. case_split; [exact H | exact H].
Qed.

Lemma step_poQtyNonNeg c s : poQtyNonNeg s -> poQtyNonNeg (step s c).
Proof.
  apply (step_pos_items (Forall (fun i => 0 <= item_qty i))).
  intros i Hi. constructor; [lia | constructor].
Qed.

(** C2, as the code has it.  From a store whose parts have non-negative
    counters and whose purchase-order lines carry non-negative quantities,
    every script of public commands leads to a store whose parts have
    non-negative counters. *)
Theorem run_stockNonNeg (cs : list Command) (s : Store) :
  poQtyNonNeg s -> stockNonNeg s -> stockNonNeg (run cs s).
Proof.
  revert s; induction cs as [|c cs IH]; intros s Hpo Hs; cbn [run fold_left].
  - exact Hs.
  - apply IH; [apply step_poQtyNonNeg | apply step_stockNonNeg]; assumption.
Qed.

Lemma run_stockNonNeg_witness :
  stockNonNeg
    (run [ReceivePO 1 "OC-1"; AdjustStock 2 (mkAdjust "P-005" (-50) None)]
       orderedStore).
Proof.
  apply (run_stockNonNeg _ orderedStore).
  - repeat constructor; cbn; lia.
  - repeat constructor; cbn; lia.
Defined.

(** C2, as stated, fails: the hypothesis on the parts alone does not keep
    [receivePO] from adding a negative line quantity to [stockOnHand]. *)
Lemma run_stockNonNeg_counterexample :
  stockNonNeg negativeLineStore
  /\ ~ stockNonNeg (run [ReceivePO 1 "OC-1"] negativeLineStore).
Proof.
  split.
  - repeat constructor; cbn; lia.
  - intros H. vm_compute in H. inversion H as [|p l [Hh _] _]; subst.
    apply Hh. reflexivity.
Qed.

(** ** Receiving a purchase order *)

Lemma find_map_pres {A} (key : A -> string) (f : A -> A) (id : string)
    (l : list A) :
  (forall a, key (f a) = key a) ->
  find (fun a => key a =? id) (map f l)
  = option_map f (find (fun a => key a =? id) l).
Proof.
  intros Hk. induction l as [|a l IH]; cbn; [reflexivity|].
  rewrite Hk. destruct (key a =? id); [reflexivity | exact IH].
Qed.


(** When no part is named twice, the lines naming a part add up to the
    quantity of the first such line. *)






(** ** Ticket patches *)

Section Patches.
Variables (now : Z) (user : Role) (id action : string).

Lemma setField_t_id t f :
  leaves K_id f = true -> t_id (setField t f) = t_id t.
Proof. destruct t, f; first [discriminate | reflexivity]. Qed.

Lemma setField_status t f :
  leaves K_status f = true -> status (setField t f) = status t.
Proof. destruct t, f; first [discriminate | reflexivity]. Qed.

Lemma setField_partId t f :
  leaves K_partId f = true -> partId (setField t f) = partId t.
Proof. destruct t, f; first [discriminate | reflexivity]. Qed.

Lemma setField_partQty t f :
  leaves K_partQty f = true -> partQty (setField t f) = partQty t.
Proof. destruct t, f; first [discriminate | reflexivity]. Qed.

Lemma updateOne_keeps {A} (proj : Ticket -> A) (k : TicketKey) :
  (forall t f, leaves k f = true -> proj (setField t f) = proj t) ->
  forall u t, forallb (leaves k) u = true ->
  proj (updateOne now user id u action t) = proj t.
Proof.
  intros Hset u t Hu. unfold updateOne.
  destruct (negb (t_id t =? id)); [reflexivity|].
  rewrite !Hset by (destruct k; reflexivity).
  unfold spread. revert t.
  induction u as [|f u IH]; intros t; cbn [fold_left].
  - reflexivity.
  - cbn [forallb] in Hu. apply andb_true_iff in Hu as [Hf Hu].
    rewrite IH by exact Hu. apply Hset, Hf.
Qed.
End Patches.

(** ** Reserving a part *)

Lemma reserve_ok_inv now ticketId partId' qty s :
  ok (fst (reservePartForTicket now ticketId partId' qty s)) = true ->
  exists t part,
    canReserve (permissions s) = true
    /\ findTicket ticketId s = Some t
    /\ findPart partId' s = Some part
    /\ normQty qty <= Utils.getAvailableStock part
    /\ let s' := snd (reservePartForTicket now ticketId partId' qty s) in
       role s' = role s
       /\ pos s' = pos s
       /\ parts s'
          = reserveStock partId' (normQty qty) (releasePrior t (parts s))
       /\ map movKey (movements s')
          = ((RESERVE, partId', normQty qty) :: releasePriorKeys t
             ++ map movKey (movements s))%list
       /\ tickets s'
          = map (updateOne now (role s) ticketId
                   [F_needsPart (Some true); F_status WAITING_PART;
                    F_partId (Some partId');
                    F_partName (Some (part_name part));
                    F_partQty (Some (normQty qty))]
                   ("Reservada refacción: " ++ part_name part
                    ++ " (x" ++ showZ (normQty qty) ++ ")"))
              (tickets s).
Proof.
  unfold reservePartForTicket.
  destruct (canReserve (permissions s)) eqn:Hperm; [|discriminate].
  cbn [negb].
  destruct (findTicket ticketId s) as [t|] eqn:Ht; [|discriminate].
  destruct (findPart partId' s) as [part|] eqn:Hp; [|discriminate].
  destruct (_ <? _)%Z eqn:Hav; [discriminate|]. intros _.
  apply Z.ltb_ge in Hav.
  exists t, part. repeat split; try assumption.
  all: unfold releasePrior, releasePriorKeys, priorReservation.
  all: destruct (partId t) as [o|]; [destruct (partQty t) as [oq|]|];
    [destruct (negb (o =? "") && negb (oq =? 0)%Z && (0 <? oq)%Z)| |];
    reflexivity.
Qed.







(** ** Releasing and issuing *)

Lemma release_ok_inv now ticketId note s :
  ok (fst (releaseReservationForTicket now ticketId note s)) = true ->
  exists t pid pq,
    canReserve (permissions s) = true
    /\ findTicket ticketId s = Some t
    /\ partLink t = Some (pid, pq)
    /\ let s' := snd (releaseReservationForTicket now ticketId note s) in
       role s' = role s
       /\ pos s' = pos s
       /\ parts s' = releaseStock pid pq (parts s)
       /\ map movKey (movements s')
          = (RELEASE, pid, pq) :: map movKey (movements s)
       /\ tickets s'
          = map (updateOne now (role s) ticketId [F_needsPart (Some false)]
                   "Reserva liberada")
              (tickets s).
Proof.
  unfold releaseReservationForTicket, partLink.
  destruct (canReserve (permissions s)) eqn:Hperm; [|discriminate].
  cbn [negb].
  destruct (findTicket ticketId s) as [t|] eqn:Ht; [|discriminate].
  destruct (partId t) as [pid|] eqn:Hpid; [|discriminate].
  destruct (partQty t) as [pq|] eqn:Hpq; [|discriminate].
  destruct ((pid =? "") || (pq =? 0)%Z) eqn:Hlink; [discriminate|].
  intros _. exists t, pid, pq. rewrite Hpid, Hpq, Hlink.
  repeat split; reflexivity.
Qed.

Lemma issue_ok_inv now ticketId note s :
  ok (fst (issueReservedPartForTicket now ticketId note s)) = true ->
  exists t pid pq part,
    canReserve (permissions s) = true
    /\ findTicket ticketId s = Some t
    /\ partLink t = Some (pid, pq)
    /\ findPart pid s = Some part
    /\ let s' := snd (issueReservedPartForTicket now ticketId note s) in
       role s' = role s
       /\ pos s' = pos s
       /\ parts s' = issueStock pid (normQty pq) (parts s)
       /\ map movKey (movements s')
          = (ISSUE, pid, normQty pq) :: map movKey (movements s)
       /\ tickets s'
          = map (updateOne now (role s) ticketId [F_needsPart (Some false)]
                   ("Refacción utilizada: " ++ part_name part
                    ++ " (x" ++ showZ (normQty pq) ++ ")"))
              (tickets s).
Proof.
  unfold issueReservedPartForTicket, partLink.
  destruct (canReserve (permissions s)) eqn:Hperm; [|discriminate].
  cbn [negb].
  destruct (findTicket ticketId s) as [t|] eqn:Ht; [|discriminate].
  destruct (partId t) as [pid|] eqn:Hpid; [|discriminate].
  destruct (partQty t) as [pq|] eqn:Hpq; [|discriminate].
  destruct ((pid =? "") || (pq =? 0)%Z) eqn:Hlink; [discriminate|].
  destruct (findPart pid s) as [part|] eqn:Hp; [|discriminate].
  intros _. exists t, pid, pq, part. rewrite Hpid, Hpq, Hlink.
  repeat split; first [reflexivity | assumption].
Qed.

(** The conditions under which a release and an issue go through. *)




(** A patch that carries neither [id] nor the part link leaves a ticket
    findable, with the same part link. *)
Lemma findTicket_updated now user id u action tid l :
  forallb (leaves K_id) u = true ->
  find (fun t => t_id t =? tid) (map (updateOne now user id u action) l)
  = option_map (updateOne now user id u action)
      (find (fun t => t_id t =? tid) l).
Proof.
  intros Hu. apply (find_map_pres t_id). intros t.
  apply (updateOne_keeps now user id action t_id K_id); [|exact Hu].
  apply setField_t_id.
Qed.

Lemma partLink_updated now user id u action t :
  forallb (leaves K_partId) u = true ->
  forallb (leaves K_partQty) u = true ->
  partLink (updateOne now user id u action t) = partLink t.
Proof.
  intros H1 H2. unfold partLink.
  rewrite (updateOne_keeps now user id action partId K_partId setField_partId)
    by exact H1.
  rewrite (updateOne_keeps now user id action partQty K_partQty
             setField_partQty) by exact H2.
  reflexivity.
Qed.


(** ** The availability check comes before the release *)



(** ** A reservation that supersedes another *)




(** ** Issuing twice *)





(** ** VERIFIED tickets *)

Lemma ticketKey_updated now user id u action l :
  forallb (leaves K_id) u = true ->
  forallb (leaves K_status) u = true ->
  map ticketKey (map (updateOne now user id u action) l) = map ticketKey l.
Proof.
  intros H1 H2. rewrite map_map. apply map_ext. intros t. unfold ticketKey.
  rewrite (updateOne_keeps now user id action t_id K_id setField_t_id)
    by exact H1.
  rewrite (updateOne_keeps now user id action status K_status
             setField_status) by exact H2.
  reflexivity.
Qed.

Lemma step_ticketKey c s :
  isReserve c = false ->
  map ticketKey (tickets (step s c)) = map ticketKey (tickets s).
Proof.
  intros Hc. unfold step.
  destruct c; try discriminate; cbn [exec]; unfold_commands;
    repeat case_split; cbn [fst snd]; try reflexivity; store_simpl.
  all: try (rewrite (proj1 (proj2 (receive_movements_frame _ _ _ _)));
            store_simpl).
  all: try reflexivity.
  all: apply ticketKey_updated; reflexivity.
Qed.

(** A successful reservation leaves the ticket in WAITING_PART, whatever
    its status was, VERIFIED included. *)
Lemma reserve_sets_waiting now ticketId partId' qty s :
  ok (fst (reservePartForTicket now ticketId partId' qty s)) = true ->
  option_map status
    (findTicket ticketId
       (snd (reservePartForTicket now ticketId partId' qty s)))
  = Some WAITING_PART.
Proof.
  intros Hok.
  destruct (reserve_ok_inv _ _ _ _ _ Hok)
    as (t & part & _ & Ht & _ & _ & _ & _ & _ & _ & Htk).
  assert (Hid : (t_id t =? ticketId) = true)
    by (apply find_some in Ht as [_ H]; exact H).
  unfold findTicket in *. rewrite Htk, findTicket_updated by reflexivity.
  rewrite Ht. cbn [option_map]. unfold updateOne. rewrite Hid.
  destruct t; reflexivity.
Qed.

(** ** Replaying the ledger *)

Section Replay.

Variable stp : PartMovementType -> Z -> Stock -> Stock.


End Replay.




(** Replaying the receptions of an order credits the part with the sum
    of the lines that name it. *)


(** What the purchasing and adjusting commands do when they succeed. *)



Lemma adjust_ok_inv now params s :
  ok (fst (adjustStock now params s)) = true ->
  ad_delta params <> 0
  /\ let s' := snd (adjustStock now params s) in
     parts s'
     = map (fun p =>
              if negb (part_id p =? ad_partId params) then p
              else setStockOnHand p
                     (clampNonNeg (stockOnHand p + ad_delta params)))
         (parts s)
     /\ map movKey (movements s')
        = (ADJUST, ad_partId params, Z.abs (ad_delta params))
          :: map movKey (movements s).
Proof.
  unfold adjustStock, numOr.
  destruct (negb (canAdjustStock (permissions s))); [discriminate|].
  destruct (findPart (ad_partId params) s) as [part|]; [|discriminate].
  destruct (ad_delta params =? 0)%Z eqn:E; [discriminate|].
  rewrite E. intros _. apply Z.eqb_neq in E. repeat split. exact E.
Qed.



(** A command either succeeds or hands back the store it was given. *)
Lemma exec_ok_or_same c s :
  succeeded (fst (exec c s)) = true \/ snd (exec c s) = s.
Proof.
  destruct c; cbn [exec]; unfold_commands; repeat case_split;
    cbn [fst snd ok failure success succeeded]; auto.
Qed.









(** The same holds from any store, not only the sample one. *)

Lemma Forall2_map_self {A} (R : A -> A -> Prop) (g : A -> A) (l : list A) :
  Forall2 R l (map g l) -> forall x, In x l -> R x (g x).
Proof.
  induction l as [|a l IH]; cbn [map]; intros H x Hx; [destruct Hx|].
  inversion H as [|a' b' l1 l2 Hab Hrest]; subst.
  destruct Hx as [<-|Hx]; [exact Hab | exact (IH Hrest x Hx)].
Qed.

Lemma adjust_role now ps s : role (snd (adjustStock now ps s)) = role s.
Proof. unfold adjustStock. repeat case_split; reflexivity. Qed.

Lemma adjust_ok_intro now ps s p :
  role s = MANAGEMENT ->
  In p (parts s) ->
  ad_partId ps = part_id p ->
  ad_delta ps <> 0 ->
  ok (fst (adjustStock now ps s)) = true.
Proof.
  intros Hrole Hin Hid Hd. unfold adjustStock, permissions, numOr.
  cbn [canAdjustStock]. rewrite Hrole. cbn [Role_eqb negb].
  destruct (findPart (ad_partId ps) s) eqn:E.
  - apply Z.eqb_neq in Hd. rewrite Hd, Hd. reflexivity.
  - exfalso. unfold findPart in E. apply (find_none _ _ E) in Hin.
    rewrite Hid, String.eqb_refl in Hin. discriminate.
Qed.

(** Whatever the store the work starts from, as long as the management
    role can adjust a part with stock on hand, an adjustment by +2 and
    one by -1 leave a ledger that no assignment of signs to movement
    types replays to the stock on hand. *)
Lemma adjust_defeats_signed_replay (s0 : Store) (p : InventoryPart)
    (sgn : PartMovementType -> Z * Z) (n1 n2 : Z) :
  role s0 = MANAGEMENT ->
  movements s0 = [] ->
  In p (parts s0) ->
  0 <= stockOnHand p ->
  ~ reproduces (replaySigned sgn) s0
      (run [AdjustStock n1 (mkAdjust (part_id p) 2 None);
            AdjustStock n2 (mkAdjust (part_id p) (-1) None)] s0).
Proof.
  intros Hrole Hempty Hin Hh Hrep.
  cbn [run fold_left step exec] in Hrep. unfold step in Hrep.
  cbn [exec returns snd] in Hrep.
  set (s1 := snd (adjustStock n1 (mkAdjust (part_id p) 2 None) s0)) in *.
  set (s2 := snd (adjustStock n2 (mkAdjust (part_id p) (-1) None) s1)) in *.
  assert (Hok1 : ok (fst (adjustStock n1 (mkAdjust (part_id p) 2 None) s0))
                 = true)
    by (apply (adjust_ok_intro _ _ _ p); [assumption.. | reflexivity
                                         | discriminate]).
  destruct (adjust_ok_inv _ _ _ Hok1) as (_ & Hparts1 & Hmov1).
  cbn [ad_partId ad_delta] in Hparts1, Hmov1. fold s1 in Hparts1, Hmov1.
  set (up := fun q : InventoryPart =>
               if negb (part_id q =? part_id p) then q
               else setStockOnHand q (clampNonNeg (stockOnHand q + 2))) in *.
  assert (Hok2 : ok (fst (adjustStock n2 (mkAdjust (part_id p) (-1) None) s1))
                 = true).
  { apply (adjust_ok_intro _ _ _ (up p)).
    - unfold s1. rewrite adjust_role. exact Hrole.
    - rewrite Hparts1. apply in_map, Hin.
    - unfold up. rewrite String.eqb_refl. reflexivity.
    - discriminate. }
  destruct (adjust_ok_inv _ _ _ Hok2) as (_ & Hparts2 & Hmov2).
  cbn [ad_partId ad_delta] in Hparts2, Hmov2. fold s2 in Hparts2, Hmov2.
  unfold reproduces, replaySigned in Hrep.
  rewrite Hmov2, Hmov1, Hempty, Hparts2, Hparts1, map_map in Hrep.
  apply Forall2_map_self with (x := p) in Hrep; [|exact Hin].
  destruct Hrep as [_ Hst]. apply (f_equal fst) in Hst.
  with_strategy opaque [Z.add Z.mul]
    (unfold replayKeys, signedStep, stockOf, up in Hst;
     rewrite String.eqb_refl in Hst;
     cbn [map fold_right fst snd part_id stockOnHand setStockOnHand negb
          Z.abs] in Hst;
     rewrite !String.eqb_refl in Hst;
     cbn [map fold_right fst snd part_id stockOnHand setStockOnHand negb
          Z.abs] in Hst).
  unfold clampNonNeg in Hst. lia.
Qed.

(** * Further properties *)

(** ** Reading ids back *)

(** Check a concrete list of ids against a bound, id by id. *)
Ltac ids_below :=
  unfold idsBelow;
  match goal with
  | |- Forall ?P ?l =>
      let l' := eval vm_compute in l in
      change (Forall P l')
  end;
  repeat (constructor; [vm_compute; first [exact I | reflexivity]|]);
  constructor.

Lemma parseDec_numeral d acc :
  parseDec (NilEmpty.string_of_uint d) acc = uintValue d acc.
Proof.
  revert acc.
  induction d; intros acc;
    cbn [NilEmpty.string_of_uint parseDec uintValue];
    try reflexivity; rewrite IHd; f_equal; cbn; lia.
Qed.

Lemma onlyDigits_numeral d :
  onlyDigits (NilEmpty.string_of_uint d) = NilEmpty.string_of_uint d.
Proof.
  induction d; cbn [NilEmpty.string_of_uint onlyDigits]; try reflexivity;
    cbn; rewrite IHd; reflexivity.
Qed.

Lemma uintValue_acc d p :
  uintValue d (Z.pos p) = Z.pos (Pos.of_uint_acc d p).
Proof.
  revert p. induction d; intros p; cbn [uintValue Pos.of_uint_acc];
    try reflexivity; rewrite <- IHd; f_equal; lia.
Qed.

Lemma uintValue_0 d : uintValue d 0 = Z.of_N (Pos.of_uint d).
Proof.
  induction d; cbn [uintValue Pos.of_uint]; try reflexivity;
    try exact IHd; cbn [Z.mul Z.add Z.of_N]; apply uintValue_acc.
Qed.

Lemma showZ_pos p :
  showZ (Z.pos p) = NilEmpty.string_of_uint (Pos.to_uint p).
Proof.
  unfold showZ. cbn [Z.to_int NilZero.string_of_int].
  unfold NilZero.string_of_uint.
  pose proof (Unsigned.to_uint_nonnil p) as H.
  destruct (Pos.to_uint p); [contradiction | reflexivity..].
Qed.

Lemma string_of_uint_nonempty d :
  d <> Decimal.Nil -> NilEmpty.string_of_uint d <> "".
Proof. destruct d; [contradiction | discriminate..]. Qed.

(** Below [2^53] a double is the integer itself: nothing is rounded, and
    the shortest numeral is the decimal expansion. *)

Lemma roundDouble_small n : n < 9007199254740992 -> roundDouble n = n.
Proof.
  intros Hn. unfold roundDouble.
  assert (H : Z.log2 n - 52 <= 0).
  { destruct (Z_lt_le_dec 0 n) as [Hp|Hp].
    - assert (Z.log2 n < 53) by (apply Z.log2_lt_pow2; [exact Hp | exact Hn]).
      lia.
    - rewrite Z.log2_nonpos by exact Hp. lia. }
  apply Z.leb_le in H. rewrite H. reflexivity.
Qed.

Lemma roundDouble_large n :
  9007199254740992 <= n -> 9007199254740992 <= roundDouble n.
Proof.
  intros Hn. unfold roundDouble.
  assert (Hp : 0 < n) by lia.
  assert (Hl : 53 <= Z.log2 n) by (apply Z.log2_le_pow2; [exact Hp | exact Hn]).
  set (e := Z.log2 n - 52).
  assert (He : 1 <= e) by (unfold e; lia).
  assert (E : (e <=? 0)%Z = false) by (apply Z.leb_gt; lia).
  rewrite E.
  assert (HP : 2 <= 2 ^ e).
  { change 2 with (2 ^ 1) at 1. apply Z.pow_le_mono_r; lia. }
  assert (Hq : 4503599627370496 <= n / 2 ^ e).
  { apply Z.div_le_lower_bound; [lia|].
    change 4503599627370496 with (2 ^ 52).
    rewrite <- Z.pow_add_r by lia.
    replace (e + 52) with (Z.log2 n) by (unfold e; lia).
    apply Z.log2_spec. exact Hp. }
  set (q := n / 2 ^ e) in *. set (P := 2 ^ e) in *.
  repeat match goal with
         | |- context [if ?b then _ else _] => destruct b
         end; nia.
Qed.

Lemma shortest_valid x n k fuel :
  roundDouble x = x -> roundDouble (shortest x n k fuel) = x.
Proof.
  intros Hx. revert k. induction fuel as [|fuel IH]; intros k;
    cbn [shortest]; [exact Hx|].
  destruct (roundDouble _ =? x)%Z eqn:Elo;
    destruct (roundDouble (_ + _) =? x)%Z eqn:Ehi;
    try apply Z.eqb_eq in Elo; try apply Z.eqb_eq in Ehi;
    repeat match goal with
           | |- context [if ?b then _ else _] => destruct b
           end;
    first [exact Elo | exact Ehi | apply IH].
Qed.

Lemma shortestValue_small x : x < 9007199254740992 -> shortestValue x = x.
Proof.
  intros Hx. unfold shortestValue.
  pose proof (shortest_valid x (numDigits x) 1 (numDigits x)
                (roundDouble_small x Hx)) as H.
  set (v := shortest _ _ _ _) in *.
  destruct (Z_lt_le_dec v 9007199254740992) as [Hv|Hv].
  - rewrite roundDouble_small in H by exact Hv. exact H.
  - apply roundDouble_large in Hv. lia.
Qed.

Lemma numToString_small x : x < 9007199254740992 -> numToString x = showZ x.
Proof.
  intros Hx. unfold numToString. rewrite shortestValue_small by exact Hx.
  assert (E : (x <? 10 ^ 21)%Z = true).
  { apply Z.ltb_lt. change (10 ^ 21) with 1000000000000000000000. lia. }
  rewrite E. reflexivity.
Qed.

Lemma idNumber_showZ n :
  0 < n < 9007199254740992 -> idNumber (showZ n) = Some n.
Proof.
  destruct n as [|p|p]; try lia. intros [_ Hn].
  unfold idNumber. rewrite showZ_pos, onlyDigits_numeral.
  destruct (NilEmpty.string_of_uint (Pos.to_uint p) =? "") eqn:E.
  - apply String.eqb_eq in E. exfalso.
    exact (string_of_uint_nonempty _ (Unsigned.to_uint_nonnil p) E).
  - rewrite parseDec_numeral, uintValue_0, Unsigned.of_to.
    change (Z.of_N (N.pos p)) with (Z.pos p).
    rewrite roundDouble_small by exact Hn.
    assert (H : (Z.pos p <? 2 ^ 1024)%Z = true).
    { apply Z.ltb_lt. apply Z.lt_le_trans with (2 ^ 53); [exact Hn|].
      apply Z.pow_le_mono_r; lia. }
    rewrite H. reflexivity.
Qed.

Lemma maxIdNumber_ge_start ids start : start <= maxIdNumber ids start.
Proof.
  unfold maxIdNumber. revert start.
  induction ids as [|id ids IH]; intros start; cbn [fold_left]; [lia|].
  etransitivity; [|apply IH]. destruct (idNumber id); lia.
Qed.

Lemma maxIdNumber_ge_in ids start id n :
  In id ids -> idNumber id = Some n -> n <= maxIdNumber ids start.
Proof.
  unfold maxIdNumber. revert start.
  induction ids as [|a ids IH]; intros start Hin Hn; [destruct Hin|].
  cbn [fold_left]. destruct Hin as [->|Hin].
  - rewrite Hn. etransitivity; [|apply maxIdNumber_ge_start]. lia.
  - apply IH; assumption.
Qed.

Lemma maxIdNumber_lt bound ids start :
  start < bound -> idsBelow bound ids -> maxIdNumber ids start < bound.
Proof.
  unfold maxIdNumber, idsBelow. revert start.
  induction ids as [|id ids IH]; intros start Hs Hids; cbn [fold_left];
    [exact Hs|].
  inversion Hids as [|x l Hid Hrest]; subst.
  apply IH; [|exact Hrest]. destruct (idNumber id); lia.
Qed.

Lemma idsBelow_incl bound l l' :
  incl l l' -> idsBelow bound l' -> idsBelow bound l.
Proof.
  unfold idsBelow. rewrite !Forall_forall. intros Hi H x Hx.
  apply H, Hi, Hx.
Qed.

Lemma onlyDigits_app a b :
  onlyDigits (a ++ b) = onlyDigits a ++ onlyDigits b.
Proof.
  induction a as [|c a IH]; cbn [append onlyDigits]; [reflexivity|].
  destruct (isDigit c); cbn [append]; rewrite IH; reflexivity.
Qed.

Lemma idNumber_nextId prefix ids start :
  onlyDigits prefix = "" -> 0 <= start ->
  maxIdNumber ids start < MAX_SAFE_INTEGER ->
  idNumber (nextId prefix ids start) = Some (maxIdNumber ids start + 1).
Proof.
  intros Hp Hs Hmax. unfold MAX_SAFE_INTEGER in Hmax.
  change (nextId prefix ids start)
    with (prefix
          ++ numToString (roundDouble (maxIdNumber ids start + 1))).
  pose proof (maxIdNumber_ge_start ids start) as Hge.
  rewrite roundDouble_small, numToString_small by lia.
  pose proof (idNumber_showZ (maxIdNumber ids start + 1)) as H.
  unfold idNumber in *. rewrite onlyDigits_app, Hp. apply H. lia.
Qed.

Lemma nextId_not_in prefix ids start :
  onlyDigits prefix = "" -> 0 <= start < MAX_SAFE_INTEGER ->
  idsBelow MAX_SAFE_INTEGER ids ->
  ~ In (nextId prefix ids start) ids.
Proof.
  intros Hp [Hs Hs'] Hids Hin.
  pose proof (maxIdNumber_lt _ _ _ Hs' Hids) as Hmax.
  pose proof (maxIdNumber_ge_in ids start _ _ Hin
                (idNumber_nextId prefix ids start Hp Hs Hmax)).
  lia.
Qed.

(** X1. As long as the numbers stay safe integers, the id [nextId] makes
    is new: for a prefix without digits, a start and ids whose numbers
    are all below [Number.MAX_SAFE_INTEGER], the id carries a number
    above [start] and above the number of every id it was given, so it
    is none of those ids. *)
Theorem nextId_fresh (prefix : string) (ids : list string) (start : Z) :
  onlyDigits prefix = "" ->
  0 <= start < MAX_SAFE_INTEGER ->
  idsBelow MAX_SAFE_INTEGER ids ->
  ~ In (nextId prefix ids start) ids
  /\ exists n,
       idNumber (nextId prefix ids start) = Some n
       /\ start < n <= MAX_SAFE_INTEGER
       /\ forall id m, In id ids -> idNumber id = Some m -> m < n.
Proof.
  intros Hp Hs Hids. split; [apply nextId_not_in; assumption|].
  pose proof (maxIdNumber_lt _ _ _ (proj2 Hs) Hids) as Hmax.
  exists (maxIdNumber ids start + 1).
  split; [apply idNumber_nextId; [assumption | lia | assumption]|].
  pose proof (maxIdNumber_ge_start ids start) as Hge.
  split; [lia|].
  intros id m Hin Hm. pose proof (maxIdNumber_ge_in ids start _ _ Hin Hm).
  lia.
Qed.

Lemma nextId_fresh_witness :
  ~ In (nextId "M-" ["M-2"; "x"; "M-10"; "OC-007"] 0)
       ["M-2"; "x"; "M-10"; "OC-007"].
Proof.
  apply (nextId_fresh "M-" ["M-2"; "x"; "M-10"; "OC-007"] 0).
  - reflexivity.
  - unfold MAX_SAFE_INTEGER. lia.
  - ids_below.
Defined.

(** From [2^53] on the doubles have gaps: [max + 1] rounds back to [max]
    and [nextId] hands out an id it was given. *)
Example nextId_repeats :
  nextId "M-" ["M-9007199254740992"] 0 = "M-9007199254740992".
Proof. vm_compute. reflexivity. Qed.

(** ** The ledger only grows *)

Lemma Logged_trans l0 l1 l2 : Logged l0 l1 -> Logged l1 l2 -> Logged l0 l2.
Proof.
  intros H01 H12. induction H12 as [|m l H IH Hid]; [exact H01|].
  apply Logged_more; assumption.
Qed.

Lemma Logged_suffix old l : Logged old l -> exists new, l = (new ++ old)%list.
Proof.
  induction 1 as [|m l H [new ->] Hid].
  - exists []. reflexivity.
  - exists (m :: new). reflexivity.
Qed.

Lemma Logged_NoDup old l :
  Logged old l ->
  idsBelow MAX_SAFE_INTEGER (map mov_id l) ->
  NoDup (map mov_id old) -> NoDup (map mov_id l).
Proof.
  induction 1 as [|m l H IH Hid]; intros Hsafe Hnd; [exact Hnd|].
  cbn [map] in *. inversion Hsafe as [|x l' Hm Hl]; subst.
  constructor; [|apply IH; assumption].
  rewrite Hid. apply nextId_not_in;
    [reflexivity | unfold MAX_SAFE_INTEGER; lia | exact Hl].
Qed.

Lemma receive_movements_logged old now po items s :
  Logged old (movements s) ->
  Logged old
    (movements
       (fold_left
          (fun s item =>
             addMovement now (item_partId item) RECEIVE (item_qty item)
               (Some ("Recepción OC " ++ po_id po ++ " (DEMO)"))
               None (Some (po_id po)) s) items s)).
Proof.
  revert s. induction items as [|i items IH]; intros s H; cbn [fold_left].
  - exact H.
  - apply IH. store_simpl. apply Logged_more; [exact H | reflexivity].
Qed.

Lemma step_logged c s : Logged (movements s) (movements (step s c)).
Proof.
  unfold step. destruct c; cbn [exec]; unfold_commands;
    repeat case_split; cbn [fst snd]; store_simpl;
    repeat (apply Logged_more; [|reflexivity]);
    try apply receive_movements_logged; store_simpl;
    apply Logged_same.
Qed.

Lemma run_logged cs s : Logged (movements s) (movements (run cs s)).
Proof.
  revert s. induction cs as [|c cs IH]; intros s; cbn [run fold_left].
  - apply Logged_same.
  - eapply Logged_trans; [apply step_logged | apply IH].
Qed.

(** X2. The ledger is append-only: whatever the script, the ledger it
    leaves is the ledger it found with new entries on top; no entry is
    changed, moved or dropped. *)
Theorem ledger_append_only (cs : list Command) (s : Store) :
  exists new, movements (run cs s) = (new ++ movements s)%list.
Proof. apply Logged_suffix, run_logged. Qed.

(** ** Ids stay unique, tickets stay in place *)

(** A command leaves the tickets alone or patches the one it names, with
    a patch that carries no [id]. *)
Lemma step_tickets_shape c s :
  tickets (step s c) = tickets s
  \/ exists now user id u action,
       ticketOf c = Some id
       /\ forallb (leaves K_id) u = true
       /\ tickets (step s c) = map (updateOne now user id u action) (tickets s).
Proof.
  unfold step. destruct c; cbn [exec ticketOf]; unfold_commands;
    repeat case_split; cbn [fst snd]; store_simpl;
    try (rewrite (proj1 (proj2 (receive_movements_frame _ _ _ _)));
         store_simpl);
    try (left; reflexivity);
    right; do 5 eexists; (split; [reflexivity|]);
    (split; [|reflexivity]); reflexivity.
Qed.

Lemma updateOne_other now user id u action t :
  t_id t <> id -> updateOne now user id u action t = t.
Proof.
  intros H. unfold updateOne. apply String.eqb_neq in H. rewrite H.
  reflexivity.
Qed.

Lemma step_ticket_ids c s :
  map t_id (tickets (step s c)) = map t_id (tickets s).
Proof.
  destruct (step_tickets_shape c s)
    as [->|(now & user & id & u & action & _ & Hu & ->)]; [reflexivity|].
  rewrite map_map. apply map_ext. intros t.
  apply (updateOne_keeps now user id action t_id K_id setField_t_id), Hu.
Qed.

Lemma step_po_ids c s :
  idsBelow MAX_SAFE_INTEGER (map po_id (pos s)) ->
  NoDup (map po_id (pos s)) -> NoDup (map po_id (pos (step s c))).
Proof.
  intros Hsafe Hnd. unfold step. destruct c; cbn [exec]; unfold_commands;
    repeat case_split; cbn [fst snd]; store_simpl;
    try (rewrite (proj2 (proj2 (proj2 (receive_movements_frame _ _ _ _))));
         store_simpl);
    try exact Hnd.
  1-3: cbn [map po_id]; constructor; [|exact Hnd];
    apply nextId_not_in;
    [reflexivity | unfold MAX_SAFE_INTEGER; lia | exact Hsafe].
  rewrite map_map.
  erewrite map_ext; [exact Hnd|].
  intros x. cbn. destruct (po_id x =? poId'); reflexivity.
Qed.

(** The ids of a store are ids of every store that comes after it. *)
Lemma step_po_ids_incl c s :
  incl (map po_id (pos s)) (map po_id (pos (step s c))).
Proof.
  unfold step. destruct c; cbn [exec]; unfold_commands;
    repeat case_split; cbn [fst snd]; store_simpl;
    try (rewrite (proj2 (proj2 (proj2 (receive_movements_frame _ _ _ _))));
         store_simpl);
    try apply incl_refl; try (cbn [map]; apply incl_tl, incl_refl).
  rewrite map_map. erewrite map_ext; [apply incl_refl|].
  intros x. cbn. destruct (po_id x =? poId'); reflexivity.
Qed.

Lemma step_mov_ids_incl c s :
  incl (map mov_id (movements s)) (map mov_id (movements (step s c))).
Proof.
  destruct (Logged_suffix _ _ (step_logged c s)) as [new ->].
  rewrite map_app. apply incl_appr, incl_refl.
Qed.

Lemma run_ids_incl cs s :
  incl (map t_id (tickets s)) (map t_id (tickets (run cs s)))
  /\ incl (map po_id (pos s)) (map po_id (pos (run cs s)))
  /\ incl (map mov_id (movements s)) (map mov_id (movements (run cs s))).
Proof.
  revert s. induction cs as [|c cs IH]; intros s; cbn [run fold_left].
  - repeat split; apply incl_refl.
  - fold (run cs (step s c)). destruct (IH (step s c)) as (Ht & Hp & Hm).
    split; [|split].
    + rewrite step_ticket_ids in Ht. exact Ht.
    + eapply incl_tran; [apply step_po_ids_incl | exact Hp].
    + eapply incl_tran; [apply step_mov_ids_incl | exact Hm].
Qed.

(** X3. Unique ids stay unique as long as their numbers stay safe
    integers: from a store in which no two tickets, no two purchase
    orders and no two movements share an id, a script leads to such a
    store whenever the numbers of the purchase-order and movement ids it
    ends with are all below [Number.MAX_SAFE_INTEGER]. *)
Theorem run_ids_unique (cs : list Command) (s : Store) :
  idsUnique s -> idsSafe (run cs s) -> idsUnique (run cs s).
Proof.
  revert s. induction cs as [|c cs IH]; intros s H Hsafe;
    cbn [run fold_left] in *.
  - exact H.
  - fold (run cs (step s c)) in *. apply IH; [|exact Hsafe].
    destruct H as (Ht & Hp & Hm). destruct Hsafe as (Sp & Sm).
    destruct (run_ids_incl cs (step s c)) as (_ & Ip & Im).
    split; [|split].
    + rewrite step_ticket_ids. exact Ht.
    + apply step_po_ids; [|exact Hp].
      eapply idsBelow_incl; [|exact Sp].
      eapply incl_tran; [apply step_po_ids_incl | exact Ip].
    + apply (Logged_NoDup _ _ (step_logged c s)); [|exact Hm].
      eapply idsBelow_incl; [exact Im | exact Sm].
Qed.

Lemma run_ids_unique_witness : idsUnique (run workScript demoStore).
Proof.
  apply (run_ids_unique workScript demoStore).
  - repeat split; cbn; repeat constructor; cbn; intuition discriminate.
  - repeat split; ids_below.
Defined.

(** The bound is needed: at [2^53] an adjustment logs its movement under
    the id of the movement already there. *)
Example ids_repeat_at_2_53 :
  let s0 :=
    mkStore MANAGEMENT [] [demoPart "P-005" "Foco LED" 2 0] []
      [mkMov "M-9007199254740992" "P-005" ADJUST 1 0 MANAGEMENT None None
         None] in
  idsUnique s0
  /\ map mov_id
       (movements (run [AdjustStock 1 (mkAdjust "P-005" 1 None)] s0))
     = ["M-9007199254740992"; "M-9007199254740992"].
Proof.
  split.
  - repeat split; cbn; repeat constructor; cbn; intuition discriminate.
  - vm_compute. reflexivity.
Qed.

(** X4. A command never creates, deletes or renames a ticket, and it
    touches no ticket but the one it names: every other ticket of the
    store is in the store it leaves, unchanged and at the same place. *)
Theorem step_ticket_frame (c : Command) (s : Store) :
  map t_id (tickets (step s c)) = map t_id (tickets s)
  /\ forall n t,
       nth_error (tickets s) n = Some t ->
       ticketOf c <> Some (t_id t) ->
       nth_error (tickets (step s c)) n = Some t.
Proof.
  split; [apply step_ticket_ids|].
  intros n t Hn Hc.
  destruct (step_tickets_shape c s)
    as [->|(now & user & id & u & action & Hid & _ & ->)]; [exact Hn|].
  rewrite nth_error_map, Hn. cbn [option_map]. f_equal.
  apply updateOne_other. intros E. apply Hc. rewrite Hid, E. reflexivity.
Qed.

Lemma step_ticket_frame_witness :
  nth_error
    (tickets (step demoStore (Reserve 1 "T-1001" "P-005" 2))) 1
  = Some (demoTicket "T-1002" IN_PROGRESS).
Proof.
  apply (proj2 (step_ticket_frame (Reserve 1 "T-1001" "P-005" 2) demoStore)).
  - reflexivity.
  - cbn. discriminate.
Defined.

(** ** Who may run what *)

(** X5. A command run under a role that lacks its capability returns a
    failure (it does not throw) and hands back the store untouched:
    reception and cleaning can run none of the six commands, maintenance
    cannot order, receive or adjust. *)
Theorem exec_needs_permission (c : Command) (s : Store) :
  allowed (role s) c = false ->
  (exists r, fst (exec c s) = Returns r /\ ok r = false)
  /\ snd (exec c s) = s.
Proof.
  unfold allowed. destruct c; cbn [exec]; unfold_commands;
    unfold permissions; cbn [canReserve canCreatePO canAdjustStock];
    destruct (role s); cbn [Role_eqb orb negb];
    intros H; try discriminate H;
    (split; [eexists; split; reflexivity | reflexivity]).
Qed.

Lemma exec_needs_permission_witness :
  snd (exec (AdjustStock 1 (mkAdjust "P-005" 3 None))
         (setRole MAINTENANCE demoStore))
  = setRole MAINTENANCE demoStore.
Proof.
  apply (proj2 (exec_needs_permission
                  (AdjustStock 1 (mkAdjust "P-005" 3 None))
                  (setRole MAINTENANCE demoStore) eq_refl)).
Defined.

(** ** What the commands never touch *)

Lemma partStatic_reserved p v : partStatic (setStockReserved p v) = partStatic p.
Proof. reflexivity. Qed.

Lemma partStatic_onHand p v : partStatic (setStockOnHand p v) = partStatic p.
Proof. reflexivity. Qed.

Lemma step_parts_static c s :
  map partStatic (parts (step s c)) = map partStatic (parts s).
Proof.
  unfold step. destruct c; cbn [exec]; unfold_commands;
    repeat case_split; cbn [fst snd]; store_simpl;
    try (rewrite (proj1 (proj2 (proj2 (receive_movements_frame _ _ _ _))));
         store_simpl);
    unfold releaseStock; rewrite ?map_map; try reflexivity;
    apply map_ext; intros x; repeat case_split; reflexivity.
Qed.

(** X6. The commands change nothing of a part but its two counters: no
    part is added, removed, reordered or renamed by any script, and the
    role never changes. *)
Theorem run_parts_static (cs : list Command) (s : Store) :
  map partStatic (parts (run cs s)) = map partStatic (parts s)
  /\ role (run cs s) = role s.
Proof.
  revert s. induction cs as [|c cs IH]; intros s; cbn [run fold_left].
  - split; reflexivity.
  - destruct (IH (step s c)) as [Hp Hr]. fold (run cs (step s c)).
    rewrite Hp, Hr, step_parts_static. split; [reflexivity|].
    unfold step. destruct c; cbn [exec]; unfold_commands;
      repeat case_split; cbn [fst snd]; store_simpl;
      try (rewrite (proj1 (receive_movements_frame _ _ _ _)); store_simpl);
      reflexivity.
Qed.

(** ** Purchase orders *)

Lemma setPOStatus_received po :
  po_status po = RECEIVED -> setPOStatus po RECEIVED = po.
Proof. destruct po; cbn. intros ->. reflexivity. Qed.

Lemma step_pos_kept c s po :
  In po (pos s) ->
  In po (pos (step s c)) \/ In (setPOStatus po RECEIVED) (pos (step s c)).
Proof.
  intros Hin. unfold step. destruct c; cbn [exec]; unfold_commands;
    repeat case_split; cbn [fst snd]; store_simpl;
    try (rewrite (proj2 (proj2 (proj2 (receive_movements_frame _ _ _ _))));
         store_simpl);
    try (left; exact Hin); try (left; right; exact Hin).
  destruct (po_id po =? poId') eqn:E.
  - right. apply in_map_iff. exists po. rewrite E. split; [reflexivity|exact Hin].
  - left. apply in_map_iff. exists po. rewrite E. split; [reflexivity|exact Hin].
Qed.

Lemma run_pos_kept_or cs s po :
  In po (pos s) ->
  In po (pos (run cs s)) \/ In (setPOStatus po RECEIVED) (pos (run cs s)).
Proof.
  revert s po. induction cs as [|c cs IH]; intros s po Hin;
    cbn [run fold_left].
  - left. exact Hin.
  - fold (run cs (step s c)).
    destruct (step_pos_kept c s po Hin) as [H1|H1];
      destruct (IH _ _ H1) as [H2|H2]; auto.
Qed.

(** X7. A purchase order is never removed and changes in one way only,
    by becoming RECEIVED; an order that is RECEIVED stays in the store as
    it is, whatever commands follow. *)
Theorem run_pos_kept (cs : list Command) (s : Store) (po : PurchaseOrder) :
  In po (pos s) ->
  (In po (pos (run cs s)) \/ In (setPOStatus po RECEIVED) (pos (run cs s)))
  /\ (po_status po = RECEIVED -> In po (pos (run cs s))).
Proof.
  intros Hin. split; [apply run_pos_kept_or, Hin|].
  intros Hst. destruct (run_pos_kept_or cs s po Hin) as [H1|H1]; [exact H1|].
  rewrite setPOStatus_received in H1; assumption.
Qed.

Lemma run_pos_kept_witness :
  In (setPOStatus
        (mkPO "OC-1" ORDERED 0 MANAGEMENT "Proveedor" None
           [mkItem "P-005" "Foco LED" 12 None] None) RECEIVED)
     (pos (run [ReceivePO 1 "OC-1";
                CreatePO 2 utcZone (mkCreatePO "P-005" 1 None None None);
                ReceivePO 3 "OC-1"]
             (run [ReceivePO 1 "OC-1"] orderedStore))).
Proof.
  refine (proj2 (run_pos_kept _ (run [ReceivePO 1 "OC-1"] orderedStore) _ _) _).
  - left. reflexivity.
  - reflexivity.
Defined.

(** ** Quantities are positive *)

Lemma receive_movements_positive now po items s :
  Forall (fun m => 0 < mov_qty m) (movements s) ->
  Forall (fun i => 0 < item_qty i) items ->
  Forall (fun m => 0 < mov_qty m)
    (movements
       (fold_left
          (fun s item =>
             addMovement now (item_partId item) RECEIVE (item_qty item)
               (Some ("Recepción OC " ++ po_id po ++ " (DEMO)"))
               None (Some (po_id po)) s) items s)).
Proof.
  revert s. induction items as [|i items IH]; intros s Hs Hi;
    cbn [fold_left]; [exact Hs|].
  inversion Hi as [|i' l Hq Hl]; subst.
  apply IH; [|exact Hl]. store_simpl. constructor; [exact Hq | exact Hs].
Qed.

Lemma sum_lines_positive items acc :
  0 <= acc -> items <> [] -> Forall (fun i => 0 < item_qty i) items ->
  0 < fold_left (fun a i => a + item_qty i) items acc.
Proof.
  revert acc. induction items as [|i items IH]; intros acc Ha Hne Hi;
    [contradiction|].
  inversion Hi as [|i' l Hq Hl]; subst. cbn [fold_left].
  destruct items as [|j items']; [cbn; lia|].
  apply IH; [lia | discriminate | exact Hl].
Qed.

Lemma step_movements_positive c s :
  qtyPositive s -> Forall (fun m => 0 < mov_qty m) (movements (step s c)).
Proof.
  intros (Hm & Ht & Hp). unfold step.
  destruct c; cbn [exec]; unfold_commands.
  - (* reserve *)
    repeat case_split; cbn [fst snd]; store_simpl; try exact Hm;
      repeat (constructor; [cbn [mov_qty]; try lia|]); try exact Hm.
  - (* release *)
    destruct (negb _); [exact Hm|].
    destruct (findTicket ticketId s) as [t|] eqn:Et; [|exact Hm].
    apply find_some in Et as [Hin _].
    rewrite Forall_forall in Ht. specialize (Ht t Hin).
    unfold partQtyPositive in Ht.
    destruct (partId t); [|exact Hm]. destruct (partQty t); [|exact Hm].
    destruct (_ || _); [exact Hm|]. cbn [fst snd]. store_simpl.
    constructor; [exact Ht | exact Hm].
  - (* issue *)
    repeat case_split; cbn [fst snd]; store_simpl; try exact Hm.
    constructor; [cbn [mov_qty]; lia | exact Hm].
  - (* createPO *)
    repeat case_split; cbn [fst snd]; store_simpl; try exact Hm;
      (constructor; [cbn [mov_qty]; lia | exact Hm]).
  - (* receivePO *)
    destruct (negb _); [exact Hm|].
    destruct (findPO poId' s) as [po|] eqn:Ef; [|exact Hm].
    apply find_some in Ef as [Hin _].
    rewrite Forall_forall in Hp. destruct (Hp po Hin) as [Hne Hpos].
    destruct (POStatus_eqb _ _); [exact Hm|]. cbn [fst snd]. store_simpl.
    constructor.
    + cbn [mov_qty]. apply sum_lines_positive; [lia | exact Hne | exact Hpos].
    + apply receive_movements_positive; [exact Hm | exact Hpos].
  - (* adjust *)
    unfold numOr. repeat case_split; cbn [fst snd]; store_simpl;
      try exact Hm; (constructor; [cbn [mov_qty] | exact Hm]).
    all: repeat match goal with
                | H : (_ =? _)%Z = false |- _ => apply Z.eqb_neq in H
                end; lia.
Qed.

Lemma step_tickets_positive c s :
  Forall partQtyPositive (tickets s) ->
  Forall partQtyPositive (tickets (step s c)).
Proof.
  intros Ht. unfold step.
  destruct c; cbn [exec]; unfold_commands;
    repeat case_split; cbn [fst snd]; store_simpl;
    try (rewrite (proj1 (proj2 (receive_movements_frame _ _ _ _)));
         store_simpl);
    try exact Ht;
    (apply Forall_map_pres; [|exact Ht]); intros x _ Hx;
    unfold partQtyPositive in *.
  all: try (rewrite (updateOne_keeps _ _ _ _ partQty K_partQty
                       setField_partQty) by reflexivity; exact Hx).
  all: unfold updateOne; destruct (negb (t_id x =? _)); [exact Hx|].
  all: destruct x; change (0 < Z.max 1 (numOr qty 1)); lia.
Qed.

Lemma step_pos_positive c s :
  Forall poLinesPositive (pos s) -> Forall poLinesPositive (pos (step s c)).
Proof.
  apply (step_pos_items
           (fun l => l <> [] /\ Forall (fun i => 0 < item_qty i) l)).
  intros i Hi. split; [discriminate|]. constructor; [lia | constructor].
Qed.

(** X8. Quantities stay positive: from a store whose movements, ticket
    quantities and purchase-order lines are all positive (every order
    having a line), every script leads to such a store; in particular no
    command logs a movement with a zero or negative quantity. *)
Theorem run_qty_positive (cs : list Command) (s : Store) :
  qtyPositive s -> qtyPositive (run cs s).
Proof.
  revert s. induction cs as [|c cs IH]; intros s H; cbn [run fold_left].
  - exact H.
  - apply IH. split; [|split].
    + apply step_movements_positive, H.
    + apply step_tickets_positive, H.
    + apply step_pos_positive, H.
Qed.

Lemma run_qty_positive_witness : qtyPositive (run workScript orderedStore).
Proof.
  apply (run_qty_positive workScript orderedStore).
  split; [constructor | split; [constructor|]].
  repeat constructor; cbn; try lia. discriminate.
Defined.

(** ** Ordering and receiving *)





(** Across a change of the clocks the estimated date is not a multiple
    of 24 hours away: ordered twelve hours before the clocks go forward,
    with one day of lead time, the order is due 23 hours later. *)
Example eta_across_clock_change :
  Date_plusDays dstZone (100000000 - 43200000) 1
  = Some (100000000 - 43200000 + 86400000 - 3600000).
Proof. reflexivity. Qed.

(** ** Reserving, then releasing or issuing *)








(** ** Updating and creating tickets *)


Lemma calculatePriority_ignores_history now t v :
  Utils.calculatePriority now (setField t (F_history v))
  = Utils.calculatePriority now t.
Proof. destruct t; reflexivity. Qed.






Lemma score_at_creation now t :
  createdAt t = now -> status t <> RESOLVED -> status t <> VERIFIED ->
  Utils.calculatePriority now t
  = urgencyPoints (urgency t) + impactPoints (impact t)
    + occupancyPoints (isOccupied t).
Proof.
  intros Hc H1 H2. rewrite calculatePriority_table, tableScore_integer, Hc.
  replace (now - now) with 0 by lia.
  destruct (status t); try congruence;
    change ((10 * 0 + Utils.msPerDay) / (2 * Utils.msPerDay)) with 0; lia.
Qed.

(** X13. [addTicket] puts one new ticket in front of the others and
    touches nothing else.  The new ticket has an id no ticket had, as
    long as the numbers of the ticket ids are below
    [Number.MAX_SAFE_INTEGER]; it is OPEN whatever status the data
    carried, is created at [now] with the single audit event of its
    creation, keeps the severity of the data, and its score is exactly
    the sum of its urgency, impact and occupancy weights. *)
Theorem addTicket_effect (now : Z) (data : Ticket) (s : Store) :
  exists t,
    tickets (addTicket now data s) = t :: tickets s
    /\ role (addTicket now data s) = role s
    /\ parts (addTicket now data s) = parts s
    /\ pos (addTicket now data s) = pos s
    /\ movements (addTicket now data s) = movements s
    /\ t_id t = nextTicketId (tickets s)
    /\ (idsBelow MAX_SAFE_INTEGER (map t_id (tickets s)) ->
        ~ In (t_id t) (map t_id (tickets s)))
    /\ status t = OPEN
    /\ createdAt t = now
    /\ history t = [createAudit now (role s) "Ticket Creado"]
    /\ (urgency t, impact t, isOccupied t)
       = (urgency data, impact data, isOccupied data)
    /\ priorityScore t
       = urgencyPoints (urgency data) + impactPoints (impact data)
         + occupancyPoints (isOccupied data).
Proof.
  unfold addTicket. store_simpl. eexists.
  split; [reflexivity|]. do 4 (split; [reflexivity|]).
  split; [destruct data; reflexivity|].
  split.
  { intros Hsafe.
    replace (t_id _) with (nextTicketId (tickets s))
      by (destruct data; reflexivity).
    apply nextId_not_in;
      [reflexivity | unfold MAX_SAFE_INTEGER; lia | exact Hsafe]. }
  do 4 (split; [destruct data; reflexivity|]).
  match goal with
  | |- priorityScore (setField ?t (F_priorityScore ?v)) = _ =>
      replace (priorityScore (setField t (F_priorityScore v))) with v
        by (destruct t; reflexivity);
      rewrite (score_at_creation now t)
  end; destruct data; first [reflexivity | discriminate].
Qed.

Lemma addTicket_effect_witness :
  exists t,
    tickets (addTicket 5 (demoTicket "" RESOLVED) demoStore)
    = t :: tickets demoStore
    /\ t_id t = "T-1004"
    /\ ~ In (t_id t) (map t_id (tickets demoStore)).
Proof.
  destruct (addTicket_effect 5 (demoTicket "" RESOLVED) demoStore)
    as (t & Ht & _ & _ & _ & _ & Hid & Hfresh & _).
  exists t. split; [exact Ht|]. split; [exact Hid|].
  apply Hfresh. ids_below.
Defined.

Lemma buildTicket_id now l data user action :
  t_id (buildTicket now l data user action) = nextTicketId l.
Proof. unfold buildTicket. destruct data; reflexivity. Qed.

(** X14. The ticket [buildTicket] makes has an id none of the given
    tickets has, as long as the numbers of their ids are below
    [Number.MAX_SAFE_INTEGER]; it has the single audit event of its
    creation and, unlike the ticket of [addTicket], the status of the
    data: its score is 0 for data that is RESOLVED or VERIFIED and the
    sum of the three weights otherwise, no age having passed. *)
Theorem buildTicket_effect (now : Z) (l : list Ticket) (data : Ticket)
    (user : Role) (action : string) :
  let t := buildTicket now l data user action in
  (idsBelow MAX_SAFE_INTEGER (map t_id l) -> ~ In (t_id t) (map t_id l))
  /\ createdAt t = now
  /\ history t = [createAudit now user action]
  /\ status t = status data
  /\ priorityScore t
     = match status data with
       | RESOLVED | VERIFIED => 0
       | _ => urgencyPoints (urgency data) + impactPoints (impact data)
              + occupancyPoints (isOccupied data)
       end.
Proof.
  intros t. split.
  { intros Hsafe. unfold t. rewrite buildTicket_id.
    apply nextId_not_in;
      [reflexivity | unfold MAX_SAFE_INTEGER; lia | exact Hsafe]. }
  do 3 (split; [destruct data; reflexivity|]).
  unfold t, buildTicket.
  match goal with
  | |- priorityScore (setField ?x (F_priorityScore ?v)) = _ =>
      replace (priorityScore (setField x (F_priorityScore v))) with v
        by (destruct x; reflexivity);
      set (b := x)
  end.
  assert (Hs : status b = status data) by (destruct data; reflexivity).
  assert (Hc : createdAt b = now) by (destruct data; reflexivity).
  assert (Hw : (urgency b, impact b, isOccupied b)
               = (urgency data, impact data, isOccupied data))
    by (destruct data; reflexivity).
  injection Hw as Hu Hi Ho. rewrite <- Hu, <- Hi, <- Ho, <- Hs.
  destruct (status b) eqn:E;
    try (apply score_at_creation; [exact Hc | congruence | congruence]);
    unfold Utils.calculatePriority; rewrite E; reflexivity.
Qed.

Lemma buildTicket_effect_witness :
  ~ In (t_id (buildTicket 5 (tickets demoStore) (demoTicket "" RESOLVED)
                MAINTENANCE "Cerrado"))
       (map t_id (tickets demoStore)).
Proof.
  apply (proj1 (buildTicket_effect 5 (tickets demoStore)
                  (demoTicket "" RESOLVED) MAINTENANCE "Cerrado")).
  ids_below.
Defined.

(** ** Demo scenarios *)

Lemma insertByScore_In t x l :
  In x (insertByScore t l) <-> x = t \/ In x l.
Proof.
  induction l as [|a l IH]; cbn [insertByScore].
  - cbn. intuition.
  - destruct (priorityScore t <? priorityScore a)%Z; cbn [In].
    + rewrite IH. intuition.
    + intuition.
Qed.

Lemma sortByScore_In x l : In x (sortByScore l) <-> In x l.
Proof.
  unfold sortByScore. induction l as [|a l IH]; cbn [fold_right].
  - reflexivity.
  - rewrite insertByScore_In, IH. cbn [In]. intuition.
Qed.

Lemma insertByScore_decreasing t l :
  Decreasing l -> Decreasing (insertByScore t l).
Proof.
  induction 1 as [|a l Ha Hl IH]; cbn [insertByScore].
  - constructor; [intros x []| constructor].
  - destruct (priorityScore t <? priorityScore a)%Z eqn:E.
    + apply Z.ltb_lt in E. constructor; [|exact IH].
      intros x Hx. apply insertByScore_In in Hx as [->|Hx]; [lia|auto].
    + apply Z.ltb_ge in E. constructor; [|constructor; assumption].
      intros x [<-|Hx]; [exact E|]. specialize (Ha x Hx). lia.
Qed.

Lemma sortByScore_decreasing l : Decreasing (sortByScore l).
Proof.
  unfold sortByScore. induction l as [|a l IH]; cbn [fold_right].
  - constructor.
  - apply insertByScore_decreasing, IH.
Qed.

Lemma find_decreasing f l t :
  Decreasing l -> find f l = Some t ->
  forall x, In x l -> f x = true -> priorityScore x <= priorityScore t.
Proof.
  induction 1 as [|a l Ha Hl IH]; cbn [find]; [discriminate|].
  destruct (f a) eqn:E.
  - intros [= <-] x [<-|Hx] _; [lia | auto].
  - intros Hf x [<-|Hx] Hfx; [congruence | auto].
Qed.

Lemma blockEligible_not_verified t :
  blockEligible t = true -> negb (TicketStatus_eqb (status t) VERIFIED) = true.
Proof. unfold blockEligible. destruct (status t); cbn; congruence. Qed.

(** X16. The ticket the block scenarios pick is an OPEN or IN_PROGRESS
    ticket of the store whose score no other OPEN or IN_PROGRESS ticket
    exceeds; none is picked exactly when the store has no such ticket. *)
Theorem pickForBlock_best (s : Store) :
  (forall t,
     pickForBlock s = Some t ->
     In t (tickets s)
     /\ blockEligible t = true
     /\ forall x, In x (tickets s) -> blockEligible x = true ->
                  priorityScore x <= priorityScore t)
  /\ (pickForBlock s = None <->
      forall x, In x (tickets s) -> blockEligible x = false).
Proof.
  unfold pickForBlock.
  set (keep := fun t : Ticket => negb (TicketStatus_eqb (status t) VERIFIED)).
  split.
  - intros t Hf. pose proof (find_some _ _ Hf) as [Hin Hel].
    apply sortByScore_In, filter_In in Hin as [Hin _].
    split; [exact Hin|]. split; [exact Hel|].
    intros x Hx Hex.
    apply (find_decreasing _ _ _ (sortByScore_decreasing _) Hf); [|exact Hex].
    apply sortByScore_In, filter_In. split; [exact Hx|].
    apply blockEligible_not_verified, Hex.
  - split.
    + intros Hnone x Hx. destruct (blockEligible x) eqn:E; [|reflexivity].
      assert (Hin : In x (sortByScore (filter keep (tickets s)))).
      { apply sortByScore_In, filter_In. split; [exact Hx|].
        apply blockEligible_not_verified, E. }
      pose proof (find_none _ _ Hnone x Hin). congruence.
    + intros Hall.
      destruct (find blockEligible (sortByScore (filter keep (tickets s))))
        as [t|] eqn:Hf; [|reflexivity].
      pose proof (find_some _ _ Hf) as [Hin Hel].
      apply sortByScore_In, filter_In in Hin as [Hin _].
      rewrite (Hall t Hin) in Hel. discriminate.
Qed.

Lemma pickForBlock_best_witness :
  In (demoTicket "T-1001" OPEN) (tickets demoStore).
Proof.
  apply (proj1 (pickForBlock_best demoStore) (demoTicket "T-1001" OPEN)).
  reflexivity.
Defined.

Lemma pickForBlock_in s :
  (forall t, pickForBlock s = Some t ->
             In t (tickets s) /\ blockEligible t = true).
Proof.
  intros t Hf. unfold pickForBlock in Hf.
  pose proof (find_some _ _ Hf) as [Hin Hel].
  apply sortByScore_In, filter_In in Hin as [Hin _]. split; assumption.
Qed.

Lemma find_updated_some now user id u action l :
  forallb (leaves K_id) u = true ->
  find (fun t => t_id t =? id) l <> None ->
  find (fun t => t_id t =? id) (map (updateOne now user id u action) l)
  <> None.
Proof.
  intros Hu Hf. rewrite findTicket_updated by exact Hu.
  destruct (find _ l); [discriminate | contradiction].
Qed.

(** What a scenario does to the store: it puts a ticket made by
    [buildTicket] in front of the others, or it patches the ticket the
    block scenarios pick, with a patch that carries no [id]. *)
Lemma runScenario_shape now sc s :
  let r := runScenario now sc s in
  role (snd r) = role s
  /\ parts (snd r) = parts s
  /\ pos (snd r) = pos s
  /\ movements (snd r) = movements s
  /\ ((exists data user action,
         let t := buildTicket now (tickets s) data user action in
         fst r = Some (t_id t) /\ tickets (snd r) = t :: tickets s)
      \/ (exists pick u action,
            pickForBlock s = Some pick
            /\ forallb (leaves K_id) u = true
            /\ fst r = Some (t_id pick)
            /\ tickets (snd r)
               = map (updateOne now MAINTENANCE (t_id pick) u action)
                   (tickets s))).
Proof.
  assert (Hnew : forall data user action,
    let t := buildTicket now (tickets s) data user action in
    let r := (Some (t_id t), setTickets (fun prev => t :: prev) s) in
    role (snd r) = role s
    /\ parts (snd r) = parts s
    /\ pos (snd r) = pos s
    /\ movements (snd r) = movements s
    /\ ((exists data user action,
           let t := buildTicket now (tickets s) data user action in
           fst r = Some (t_id t) /\ tickets (snd r) = t :: tickets s)
        \/ (exists pick u action,
              pickForBlock s = Some pick
              /\ forallb (leaves K_id) u = true
              /\ fst r = Some (t_id pick)
              /\ tickets (snd r)
                 = map (updateOne now MAINTENANCE (t_id pick) u action)
                     (tickets s)))).
  { intros data user action t r. do 4 (split; [reflexivity|]).
    left. exists data, user, action. split; reflexivity. }
  assert (Hupd : forall id u action,
    forallb (leaves K_id) u = true ->
    option_map t_id (pickForBlock s) = Some id ->
    let r := (Some id, updateTicketAs now MAINTENANCE id u action s) in
    role (snd r) = role s
    /\ parts (snd r) = parts s
    /\ pos (snd r) = pos s
    /\ movements (snd r) = movements s
    /\ ((exists data user action,
           let t := buildTicket now (tickets s) data user action in
           fst r = Some (t_id t) /\ tickets (snd r) = t :: tickets s)
        \/ (exists pick u action,
              pickForBlock s = Some pick
              /\ forallb (leaves K_id) u = true
              /\ fst r = Some (t_id pick)
              /\ tickets (snd r)
                 = map (updateOne now MAINTENANCE (t_id pick) u action)
                     (tickets s)))).
  { intros id u action Hu Hpick r. do 4 (split; [reflexivity|]).
    right. destruct (pickForBlock s) as [t|] eqn:Ep; [|discriminate].
    injection Hpick as <-. exists t, u, action.
    split; [reflexivity|]. split; [exact Hu|]. split; reflexivity. }
  destruct sc; cbn [runScenario].
  - apply Hnew.
  - apply Hnew.
  - destruct (truthyStr (option_map t_id (pickForBlock s))) eqn:Et.
    + destruct (option_map t_id (pickForBlock s)) as [id|] eqn:Eid;
        [|discriminate].
      destruct (match find _ (parts s) with
                | Some p => Some p
                | None => hd_error (parts s)
                end) as [lp|].
      * apply Hupd; reflexivity.
      * apply Hnew.
    + apply Hnew.
  - destruct (truthyStr (option_map t_id (pickForBlock s))) eqn:Et.
    + destruct (option_map t_id (pickForBlock s)) as [id|] eqn:Eid;
        [|discriminate].
      apply Hupd; reflexivity.
    + apply Hnew.
Qed.

(** X17. A scenario never touches the inventory: role, parts, purchase
    orders and ledger come out as they went in, so a ticket a scenario
    marks as waiting for a part has nothing reserved for it.  A scenario
    always hands back the id of a ticket of the resulting store, which is
    either a new ticket in front of the others, with an unused id as long
    as the numbers of the ticket ids are below [Number.MAX_SAFE_INTEGER],
    or a ticket that was already there. *)
Theorem runScenario_effect (now : Z) (sc : DemoScenario) (s : Store) :
  let r := runScenario now sc s in
  role (snd r) = role s
  /\ parts (snd r) = parts s
  /\ pos (snd r) = pos s
  /\ movements (snd r) = movements s
  /\ exists id,
       fst r = Some id
       /\ findTicket id (snd r) <> None
       /\ ((exists t, tickets (snd r) = t :: tickets s /\ t_id t = id
                      /\ id = nextTicketId (tickets s)
                      /\ (idsBelow MAX_SAFE_INTEGER (map t_id (tickets s)) ->
                          ~ In id (map t_id (tickets s))))
           \/ (map t_id (tickets (snd r)) = map t_id (tickets s)
               /\ In id (map t_id (tickets s)))).
Proof.
  intros r.
  destruct (runScenario_shape now sc s) as (Hr & Hp & Ho & Hm & Hshape).
  fold r in Hr, Hp, Ho, Hm, Hshape.
  do 4 (split; [assumption|]).
  destruct Hshape as [(data & user & action & Hid & Ht)
                     |(pick & u & action & Hpick & Hu & Hid & Ht)].
  - exists (t_id (buildTicket now (tickets s) data user action)).
    split; [exact Hid|]. split.
    + unfold findTicket. rewrite Ht. cbn [find]. rewrite String.eqb_refl.
      discriminate.
    + left. eexists. split; [exact Ht|]. split; [reflexivity|].
      rewrite buildTicket_id. split; [reflexivity|]. intros Hsafe.
      apply nextId_not_in;
        [reflexivity | unfold MAX_SAFE_INTEGER; lia | exact Hsafe].
  - exists (t_id pick). split; [exact Hid|].
    destruct (pickForBlock_in s pick Hpick) as [Hin _].
    split.
    + unfold findTicket. rewrite Ht.
      apply find_updated_some; [exact Hu|].
      intros Hnone. apply (find_none _ _ Hnone) in Hin.
      rewrite String.eqb_refl in Hin. discriminate.
    + right. split.
      * rewrite Ht, map_map. apply map_ext. intros x.
        apply (updateOne_keeps _ _ _ _ t_id K_id setField_t_id), Hu.
      * apply in_map, Hin.
Qed.

Lemma runScenario_effect_witness :
  fst (runScenario 5 GUEST_COMPLAINT demoStore) = Some "T-1004"
  /\ ~ In "T-1004" (map t_id (tickets demoStore)).
Proof.
  destruct (runScenario_effect 5 GUEST_COMPLAINT demoStore)
    as (_ & _ & _ & _ & id & Hid & _ & [(t & _ & _ & Hnext & Hfresh)|[_ Hin]]).
  - assert (E : id = "T-1004") by (rewrite Hnext; reflexivity).
    rewrite <- E. split; [exact Hid|]. apply Hfresh. ids_below.
  - exfalso. vm_compute in Hid. injection Hid as <-.
    cbn in Hin. intuition discriminate.
Defined.

(** ** VERIFIED tickets under every operation *)

Lemma ids_updated now user id u action l :
  forallb (leaves K_id) u = true ->
  map t_id (map (updateOne now user id u action) l) = map t_id l.
Proof.
  intros Hu. rewrite map_map. apply map_ext. intros t.
  apply (updateOne_keeps _ _ _ _ t_id K_id setField_t_id), Hu.
Qed.

Lemma verifiedAt_updated now user id u action tid l :
  forallb (leaves K_id) u = true ->
  (id = tid -> forallb (leaves K_status) u = true) ->
  verifiedAt tid l -> verifiedAt tid (map (updateOne now user id u action) l).
Proof.
  intros Hid Hst [Hin Hall].
  assert (Hids : forall t, t_id (updateOne now user id u action t) = t_id t)
    by (intros t;
        apply (updateOne_keeps _ _ _ _ t_id K_id setField_t_id), Hid).
  split.
  - rewrite map_map. erewrite map_ext; [exact Hin | exact Hids].
  - rewrite Forall_forall in *. intros x Hx.
    apply in_map_iff in Hx as (t & <- & Ht). rewrite Hids. intros Htid.
    destruct (String.eqb_spec (t_id t) id) as [E|E].
    + rewrite (updateOne_keeps _ _ _ _ status K_status setField_status)
        by (apply Hst; congruence).
      apply Hall; assumption.
    + rewrite updateOne_other by exact E. apply Hall; assumption.
Qed.

Lemma verifiedAt_cons tid t l :
  t_id t <> tid -> verifiedAt tid l -> verifiedAt tid (t :: l).
Proof.
  intros Hne [Hin Hall]. split; [right; exact Hin|].
  constructor; [intros E; contradiction | exact Hall].
Qed.

Lemma verifiedAt_keys tid l l' :
  map ticketKey l' = map ticketKey l -> verifiedAt tid l -> verifiedAt tid l'.
Proof.
  intros E [Hin Hall].
  assert (Hk : forall k : list Ticket,
            map t_id k = map fst (map ticketKey k))
    by (intros k; rewrite map_map; reflexivity).
  assert (Hf : forall k : list Ticket,
            Forall (fun t => t_id t = tid -> status t = VERIFIED) k
            <-> Forall (fun x => fst x = tid -> snd x = VERIFIED)
                  (map ticketKey k))
    by (intros k; rewrite Forall_map; reflexivity).
  split.
  - rewrite Hk, E, <- Hk. exact Hin.
  - apply Hf. rewrite E. apply Hf. exact Hall.
Qed.

Lemma reserve_fail_same now t p q s :
  ok (fst (reservePartForTicket now t p q s)) = false ->
  snd (reservePartForTicket now t p q s) = s.
Proof.
  intros H. destruct (exec_ok_or_same (Reserve now t p q) s) as [Hok|Hs].
  - cbn [exec returns fst succeeded] in Hok. congruence.
  - exact Hs.
Qed.

Lemma nextTicketId_other tid l :
  idsBelow MAX_SAFE_INTEGER (map t_id l) ->
  In tid (map t_id l) -> nextTicketId l <> tid.
Proof.
  intros Hsafe Hin E. subst tid. revert Hin.
  apply nextId_not_in;
    [reflexivity | unfold MAX_SAFE_INTEGER; lia | exact Hsafe].
Qed.

(** One action that spares the tickets named [tid] leaves them
    VERIFIED. *)
Lemma act_verifiedAt tid s a :
  verifiedAt tid (tickets s) -> spares tid s a ->
  idsBelow MAX_SAFE_INTEGER (map t_id (tickets s)) ->
  verifiedAt tid (tickets (act s a)).
Proof.
  intros Hv Hsp Hsafe. destruct a as [c|now data|now id u d|now sc];
    cbn [act spares] in *.
  - destruct (isReserve c) eqn:Hc.
    + destruct c; try discriminate Hc. unfold step. cbn [exec returns snd].
      destruct (ok (fst (reservePartForTicket now ticketId partId' qty s)))
        eqn:Hok.
      * destruct (reserve_ok_inv _ _ _ _ _ Hok)
          as (t & part & _ & _ & _ & _ & _ & _ & _ & _ & Htk).
        rewrite Htk. apply verifiedAt_updated; [reflexivity| |exact Hv].
        intros E. specialize (Hsp E). congruence.
      * rewrite reserve_fail_same by exact Hok. exact Hv.
    + eapply verifiedAt_keys; [apply step_ticketKey, Hc | exact Hv].
  - unfold addTicket. store_simpl. apply verifiedAt_cons; [|exact Hv].
    replace (t_id _) with (nextTicketId (tickets s))
      by (destruct data; reflexivity).
    apply nextTicketId_other; [exact Hsafe | apply Hv].
  - unfold updateTicket. store_simpl. destruct Hsp as [H1 H2].
    apply verifiedAt_updated; assumption.
  - destruct (runScenario_shape now sc s)
      as (_ & _ & _ & _ & [(data & user & action & _ & Ht)
                          |(pick & u & action & Hpick & Hu & _ & Ht)]);
      rewrite Ht.
    + apply verifiedAt_cons; [|exact Hv]. rewrite buildTicket_id.
      apply nextTicketId_other; [exact Hsafe | apply Hv].
    + apply verifiedAt_updated; [exact Hu| |exact Hv].
      intros E. exfalso.
      destruct (pickForBlock_in s pick Hpick) as [Hin Hel].
      destruct Hv as [_ Hall]. rewrite Forall_forall in Hall.
      specialize (Hall pick Hin E). unfold blockEligible in Hel.
      rewrite Hall in Hel. discriminate.
Qed.

Lemma act_ticket_ids_incl tid s a :
  spares tid s a ->
  incl (map t_id (tickets s)) (map t_id (tickets (act s a))).
Proof.
  intros Hsp. destruct a as [c|now data|now id u d|now sc];
    cbn [act spares] in *.
  - rewrite step_ticket_ids. apply incl_refl.
  - unfold addTicket. store_simpl. cbn [map]. apply incl_tl, incl_refl.
  - unfold updateTicket. store_simpl.
    rewrite ids_updated by apply Hsp. apply incl_refl.
  - destruct (runScenario_shape now sc s)
      as (_ & _ & _ & _ & [(data & user & action & _ & Ht)
                          |(pick & u & action & _ & Hu & _ & Ht)]);
      rewrite Ht.
    + cbn [map]. apply incl_tl, incl_refl.
    + rewrite ids_updated by exact Hu. apply incl_refl.
Qed.

Lemma perform_ticket_ids_incl tid script s :
  sparesAll tid s script ->
  incl (map t_id (tickets s)) (map t_id (tickets (perform script s))).
Proof.
  revert s. induction script as [|a script IH]; intros s Hsp;
    cbn [perform fold_left sparesAll] in *.
  - apply incl_refl.
  - destruct Hsp as [Ha Hrest]. fold (perform script (act s a)).
    eapply incl_tran; [apply (act_ticket_ids_incl tid), Ha | apply IH, Hrest].
Qed.

Lemma perform_verifiedAt tid script s :
  verifiedAt tid (tickets s) ->
  sparesAll tid s script ->
  idsBelow MAX_SAFE_INTEGER (map t_id (tickets (perform script s))) ->
  verifiedAt tid (tickets (perform script s)).
Proof.
  revert s. induction script as [|a script IH]; intros s Hv Hsp Hsafe;
    cbn [perform fold_left sparesAll] in *.
  - exact Hv.
  - destruct Hsp as [Ha Hrest]. fold (perform script (act s a)) in *.
    apply IH; [|exact Hrest|exact Hsafe].
    apply act_verifiedAt; [exact Hv | exact Ha|].
    eapply idsBelow_incl; [|exact Hsafe].
    eapply incl_tran;
      [apply (act_ticket_ids_incl tid), Ha
      | apply (perform_ticket_ids_incl tid), Hrest].
Qed.

(** C7, as the code has it.  The engine has no guard on the status of a
    ticket: a successful [reservePartForTicket] leaves its ticket in
    WAITING_PART whatever its status was, and [updateTicket] applies a
    status patch to any ticket.  Nothing else takes a ticket out of
    VERIFIED: through any script of the six commands, [addTicket],
    [updateTicket] and [runScenario], the tickets named [tid], all
    VERIFIED at the start, are all VERIFIED at the end, provided no
    reservation for [tid] succeeds on the way, no patch names [tid] with
    a [status] key, no patch carries an [id] key, and the numbers of the
    ticket ids stay below [Number.MAX_SAFE_INTEGER] (so that a new ticket
    does not take the name [tid]). *)
Theorem verified_kept :
  (forall script s tid,
     verifiedAt tid (tickets s) ->
     sparesAll tid s script ->
     idsBelow MAX_SAFE_INTEGER (map t_id (tickets (perform script s))) ->
     verifiedAt tid (tickets (perform script s)))
  /\ (forall now ticketId partId' qty s,
        ok (fst (reservePartForTicket now ticketId partId' qty s)) = true ->
        option_map status
          (findTicket ticketId
             (snd (reservePartForTicket now ticketId partId' qty s)))
        = Some WAITING_PART)
  /\ (forall now id st action s t,
        findTicket id s = Some t ->
        option_map status
          (findTicket id (updateTicket now id [F_status st] action s))
        = Some st).
Proof.
  split; [|split].
  - intros script s tid. apply perform_verifiedAt.
  - intros now ticketId partId' qty s. apply reserve_sets_waiting.
  - intros now id st action s t Ht.
    assert (Hid : (t_id t =? id) = true)
      by (apply find_some in Ht as [_ H]; exact H).
    unfold findTicket, updateTicket in *. store_simpl.
    rewrite findTicket_updated by reflexivity.
    rewrite Ht. cbn [option_map]. unfold updateOne. rewrite Hid.
    destruct t; reflexivity.
Qed.

Lemma verified_kept_witness :
  verifiedAt "T-1003" (tickets (perform mixedScript demoStore)).
Proof.
  apply (proj1 verified_kept mixedScript demoStore "T-1003").
  - split; [cbn; auto|]. repeat constructor; cbn; congruence.
  - cbn [mixedScript sparesAll spares]. repeat split;
      first [ reflexivity
            | intros E; discriminate E
            | intros _; vm_compute; reflexivity ].
  - ids_below.
Defined.

(** C7, as stated, fails: a reservation moves a VERIFIED ticket to
    WAITING_PART, and [updateTicket] applies a status patch to it. *)
Lemma verified_terminal_counterexample :
  option_map status (findTicket "T-1003" demoStore) = Some VERIFIED
  /\ ok (fst (reservePartForTicket 1 "T-1003" "P-005" 1 demoStore)) = true
  /\ option_map status
       (findTicket "T-1003" (run [Reserve 1 "T-1003" "P-005" 1] demoStore))
     = Some WAITING_PART
  /\ option_map status
       (findTicket "T-1003"
          (updateTicket 1 "T-1003" [F_status OPEN] "Reabierto" demoStore))
     = Some OPEN.
Proof.
  vm_compute. repeat split; reflexivity.
Qed.

(** Past the safe integers the proviso on the ids bites: a new ticket
    takes the id of the VERIFIED ticket, and the block scenario, picking
    the new ticket, patches both. *)
Example verified_lost_at_2_53 :
  let s0 :=
    mkStore MANAGEMENT [demoTicket "T-9007199254740992" VERIFIED] [] [] [] in
  let s1 :=
    perform [AddTicket 1 (demoTicket "" OPEN); RunScenario 2 BLOCK_VENDOR] s0
  in
  map ticketKey (tickets s1)
  = [("T-9007199254740992", VENDOR); ("T-9007199254740992", VENDOR)].
Proof. vm_compute. reflexivity. Qed.

(** ** Stock flags and reorder quantity *)

Lemma available_nonneg p : 0 <= Utils.getAvailableStock p.
Proof. unfold Utils.getAvailableStock, Utils.clampNonNeg. lia. Qed.

(** X18. The stock flags agree with each other: a part is never both
    out of stock and low on stock; its badge reads SIN STOCK exactly when
    it is out of stock, BAJO STOCK exactly when it is low, and OK
    otherwise; and for a non-negative minimum it is flagged for reorder
    exactly when its badge is not OK.  With a negative minimum no part
    is flagged for reorder, not even one that is out of stock. *)
Theorem stock_flags (p : InventoryPart) :
  (Utils.isOutOfStock p && isLowStock p = false)
  /\ label (getStockBadge p)
     = (if Utils.isOutOfStock p then "SIN STOCK"
        else if isLowStock p then "BAJO STOCK" else "OK")
  /\ (0 <= minStock p ->
      shouldReorder p = Utils.isOutOfStock p || isLowStock p)
  /\ (minStock p < 0 -> shouldReorder p = false).
Proof.
  pose proof (available_nonneg p) as Hav.
  unfold getStockBadge, Utils.isOutOfStock, isLowStock, shouldReorder.
  set (a := Utils.getAvailableStock p) in *.
  split; [|split; [|split]].
  - destruct (a <=? 0)%Z eqn:E1; [|reflexivity].
    destruct (minStock p <=? 0)%Z; [reflexivity|].
    apply Z.leb_le in E1. replace (0 <? a)%Z with false; [reflexivity|].
    symmetry. apply Z.ltb_ge. exact E1.
  - destruct (a <=? 0)%Z; [reflexivity|].
    destruct (minStock p <=? 0)%Z; [reflexivity|].
    destruct ((0 <? a)%Z && (a <=? minStock p)%Z); reflexivity.
  - intros Hmin.
    destruct (a <=? minStock p)%Z eqn:E1, (a <=? 0)%Z eqn:E2,
      (minStock p <=? 0)%Z eqn:E3, (0 <? a)%Z eqn:E4;
      cbn [orb andb]; try reflexivity; exfalso;
      repeat match goal with
             | H : (_ <=? _)%Z = true |- _ => apply Z.leb_le in H
             | H : (_ <=? _)%Z = false |- _ => apply Z.leb_gt in H
             | H : (_ <? _)%Z = true |- _ => apply Z.ltb_lt in H
             | H : (_ <? _)%Z = false |- _ => apply Z.ltb_ge in H
             end; lia.
  - intros Hmin. apply Z.leb_gt. lia.
Qed.

Lemma stock_flags_witness :
  shouldReorder (demoPart "P-003" "Chapa" 1 0)
  = Utils.isOutOfStock (demoPart "P-003" "Chapa" 1 0)
    || isLowStock (demoPart "P-003" "Chapa" 1 0).
Proof.
  apply (proj1 (proj2 (proj2 (stock_flags (demoPart "P-003" "Chapa" 1 0))))).
  cbn. lia.
Defined.



(** ** Bounds on the priority score *)

Lemma age_quotient_mono a b :
  a <= b ->
  (10 * a + Utils.msPerDay) / (2 * Utils.msPerDay)
  <= (10 * b + Utils.msPerDay) / (2 * Utils.msPerDay).
Proof.
  intros H. apply Z.div_le_mono; [reflexivity | lia].
Qed.

(** X20. For a ticket that is neither RESOLVED nor VERIFIED the score
    never exceeds 150, is at least 10 once the creation instant has
    passed, never goes down as time passes, and has reached its final
    value, the weights plus 30, from 5.9 days of age on. *)
Theorem priority_bounds (now now' : Z) (t : Ticket) :
  status t <> RESOLVED -> status t <> VERIFIED ->
  Utils.calculatePriority now t <= 150
  /\ (createdAt t <= now -> 10 <= Utils.calculatePriority now t)
  /\ (now <= now' ->
      Utils.calculatePriority now t <= Utils.calculatePriority now' t)
  /\ (createdAt t + 509760000 <= now ->
      Utils.calculatePriority now t
      = urgencyPoints (urgency t) + impactPoints (impact t)
        + occupancyPoints (isOccupied t) + 30).
Proof.
  intros H1 H2. rewrite !calculatePriority_table, !tableScore_integer.
  assert (Hw : 10 <= urgencyPoints (urgency t) + impactPoints (impact t)
                     + occupancyPoints (isOccupied t) <= 120)
    by (destruct (urgency t), (impact t), (isOccupied t); cbn; lia).
  pose proof (age_quotient_mono (now - createdAt t) (now' - createdAt t)).
  assert (H0 : createdAt t <= now ->
               0 <= (10 * (now - createdAt t) + Utils.msPerDay)
                    / (2 * Utils.msPerDay)).
  { intros Hc. apply Z.div_pos; [|reflexivity].
    change Utils.msPerDay with 86400000. lia. }
  assert (H30 : createdAt t + 509760000 <= now ->
                30 <= (10 * (now - createdAt t) + Utils.msPerDay)
                      / (2 * Utils.msPerDay)).
  { intros Hc. apply Z.div_le_lower_bound; [reflexivity|].
    change Utils.msPerDay with 86400000. lia. }
  destruct (status t); try congruence; repeat split; intros; lia.
Qed.

Lemma priority_bounds_witness :
  Utils.calculatePriority 600000000 (demoTicket "T-1" OPEN) = 40.
Proof.
  refine (proj2 (proj2 (proj2
            (priority_bounds 600000000 600000000 (demoTicket "T-1" OPEN)
               _ _))) _); cbn; first [discriminate | lia].
Defined.

(** X21. The rounding of the age term never mixes with the weights: two
    open tickets of the same age differ in score by exactly the
    difference of their weights; in particular raising a ticket from low
    urgency, no impact, room free to high urgency, blocking, room
    occupied adds 110. *)
Theorem priority_severity (now : Z) (t1 t2 : Ticket) :
  status t1 <> RESOLVED -> status t1 <> VERIFIED ->
  status t2 <> RESOLVED -> status t2 <> VERIFIED ->
  createdAt t1 = createdAt t2 ->
  Utils.calculatePriority now t2 - Utils.calculatePriority now t1
  = (urgencyPoints (urgency t2) - urgencyPoints (urgency t1))
    + (impactPoints (impact t2) - impactPoints (impact t1))
    + (occupancyPoints (isOccupied t2) - occupancyPoints (isOccupied t1)).
Proof.
  intros A1 A2 B1 B2 Hc.
  rewrite !calculatePriority_table, !tableScore_integer, Hc.
  destruct (status t1), (status t2); try congruence; lia.
Qed.

Lemma priority_severity_witness :
  Utils.calculatePriority 5
    (spread (demoTicket "T-1" OPEN)
       [F_urgency HIGH; F_impact BLOCKING; F_isOccupied true])
  - Utils.calculatePriority 5 (demoTicket "T-1" OPEN)
  = 110.
Proof.
  apply (priority_severity 5 (demoTicket "T-1" OPEN)
           (spread (demoTicket "T-1" OPEN)
              [F_urgency HIGH; F_impact BLOCKING; F_isOccupied true]));
    first [discriminate | reflexivity].
Defined.

(** ** What each command leaves alone *)

(** X22. Reserving, releasing and ordering never move the stock on
    hand; ordering, receiving and adjusting never move the reserved
    stock; and only ordering and receiving touch the purchase orders. *)
Theorem command_frames (c : Command) (s : Store) :
  (movesOnHand c = false ->
   map stockOnHand (parts (step s c)) = map stockOnHand (parts s))
  /\ (movesReserved c = false ->
      map stockReserved (parts (step s c)) = map stockReserved (parts s))
  /\ (movesOrders c = false -> pos (step s c) = pos s).
Proof.
  unfold step.
  split; [|split]; intros Hc;
    destruct c; try discriminate Hc; cbn [exec]; unfold_commands;
    repeat case_split; cbn [fst snd]; store_simpl;
    try (rewrite (proj1 (proj2 (proj2 (receive_movements_frame _ _ _ _))));
         store_simpl);
    try (rewrite (proj1 (proj2 (receive_movements_frame _ _ _ _)));
         store_simpl);
    try reflexivity; try discriminate Hc;
    unfold releaseStock; rewrite ?map_map; apply map_ext; intros x;
    repeat case_split; reflexivity.
Qed.

Lemma command_frames_witness :
  map stockOnHand (parts (step demoStore (Reserve 1 "T-1001" "P-005" 4)))
  = [1; 10].
Proof.
  apply (proj1 (command_frames (Reserve 1 "T-1001" "P-005" 4) demoStore)).
  reflexivity.
Defined.

(** ** Rejections of the other commands *)

(** X23. The guards of release, issue, order, receive and adjust, in
    the order the code tests them: with the capability granted, an
    unknown ticket, a ticket without part link, a link to a part that no
    longer exists, an unknown part, an unknown order and a zero delta
    are each refused with their own message. *)
Theorem other_rejections (now : Z) (s : Store) :
  (forall tid note,
     canReserve (permissions s) = true ->
     findTicket tid s = None ->
     fst (releaseReservationForTicket now tid note s)
     = failure "Ticket no encontrado."
     /\ fst (issueReservedPartForTicket now tid note s)
        = failure "Ticket no encontrado.")
  /\ (forall tid note t,
        canReserve (permissions s) = true ->
        findTicket tid s = Some t ->
        partLink t = None ->
        fst (releaseReservationForTicket now tid note s)
        = failure "Este ticket no tiene refacción reservada."
        /\ fst (issueReservedPartForTicket now tid note s)
           = failure "Este ticket no tiene refacción vinculada.")
  /\ (forall tid note t pid pq,
        canReserve (permissions s) = true ->
        findTicket tid s = Some t ->
        partLink t = Some (pid, pq) ->
        findPart pid s = None ->
        fst (issueReservedPartForTicket now tid note s)
        = failure "Refacción no encontrada.")
  /\ (forall tz params,
        canCreatePO (permissions s) = true ->
        findPart (cp_partId params) s = None ->
        fst (createPOForPart now tz params s)
        = Returns (failure "Refacción no encontrada."))
  /\ (forall poId',
        canCreatePO (permissions s) = true ->
        findPO poId' s = None ->
        fst (receivePO now poId' s) = failure "OC no encontrada.")
  /\ (forall params,
        canAdjustStock (permissions s) = true ->
        (findPart (ad_partId params) s = None ->
         fst (adjustStock now params s) = failure "Refacción no encontrada.")
        /\ (findPart (ad_partId params) s <> None ->
            ad_delta params = 0 ->
            fst (adjustStock now params s) = failure "Delta inválido.")).
Proof.
  split; [|split; [|split; [|split; [|split]]]].
  - intros tid note Hperm Ht.
    unfold releaseReservationForTicket, issueReservedPartForTicket.
    rewrite Hperm, Ht. split; reflexivity.
  - intros tid note t Hperm Ht Hlink.
    unfold releaseReservationForTicket, issueReservedPartForTicket.
    rewrite Hperm, Ht. cbn [negb]. unfold partLink in Hlink.
    destruct (partId t); [|split; reflexivity].
    destruct (partQty t); [|split; reflexivity].
    destruct (_ || _); [split; reflexivity | discriminate].
  - intros tid note t pid pq Hperm Ht Hlink Hp.
    unfold issueReservedPartForTicket.
    rewrite Hperm, Ht. cbn [negb]. unfold partLink in Hlink.
    destruct (partId t); [|discriminate].
    destruct (partQty t); [|discriminate].
    destruct (_ || _); [discriminate|]. injection Hlink as -> ->.
    rewrite Hp. reflexivity.
  - intros tz params Hperm Hp. unfold createPOForPart. rewrite Hperm, Hp.
    reflexivity.
  - intros poId' Hperm Hf. unfold receivePO. rewrite Hperm, Hf.
    reflexivity.
  - intros params Hperm. unfold adjustStock. rewrite Hperm. cbn [negb].
    split.
    + intros ->. reflexivity.
    + intros Hp ->. destruct (findPart _ s); [reflexivity | contradiction].
Qed.

Lemma other_rejections_witness :
  fst (issueReservedPartForTicket 1 "T-1001" None demoStore)
  = failure "Este ticket no tiene refacción vinculada.".
Proof.
  apply (proj1 (proj2 (other_rejections 1 demoStore)) "T-1001" None
           (demoTicket "T-1001" OPEN)); reflexivity.
Defined.

(** ** Available stock after a reservation *)



(** ** The part link after a release or an issue *)

Lemma partLink_partId t pid pq :
  partLink t = Some (pid, pq) -> getPartIdFromTicket t = Some pid.
Proof.
  unfold partLink, getPartIdFromTicket.
  destruct (partId t) as [p|]; [|discriminate].
  destruct (partQty t) as [q|]; [|discriminate].
  destruct (p =? ""); cbn [orb]; [discriminate|].
  destruct (q =? 0)%Z; [discriminate|]. intros [= -> _]. reflexivity.
Qed.

Lemma link_after_update now user tid action s t pid pq :
  findTicket tid s = Some t ->
  partLink t = Some (pid, pq) ->
  exists t',
    find (fun x => t_id x =? tid)
      (map (updateOne now user tid [F_needsPart (Some false)] action)
         (tickets s))
    = Some t'
    /\ partLink t' = partLink t
    /\ getPartIdFromTicket t' = getPartIdFromTicket t
    /\ getPartIdFromTicket t' <> None.
Proof.
  intros Ht Hl. rewrite findTicket_updated by reflexivity.
  fold (findTicket tid s). rewrite Ht. cbn [option_map]. eexists.
  split; [reflexivity|].
  assert (E : partLink
                (updateOne now user tid [F_needsPart (Some false)] action t)
              = partLink t) by (apply partLink_updated; reflexivity).
  split; [exact E|]. rewrite Hl in E.
  rewrite (partLink_partId _ _ _ E), (partLink_partId _ _ _ Hl).
  split; [reflexivity | discriminate].
Qed.

(** X25. A release or an issue that succeeds gives the stock back or
    consumes it but leaves the part link on the ticket: the ticket is
    still found afterwards, with the part id and quantity it had, and
    [getPartIdFromTicket] still answers with that part. *)
Theorem part_link_survives (now : Z) (tid : string) (note : option string)
    (s : Store) :
  (ok (fst (releaseReservationForTicket now tid note s)) = true ->
   exists t t',
     findTicket tid s = Some t
     /\ findTicket tid (snd (releaseReservationForTicket now tid note s))
        = Some t'
     /\ partLink t' = partLink t
     /\ getPartIdFromTicket t' = getPartIdFromTicket t
     /\ getPartIdFromTicket t' <> None)
  /\ (ok (fst (issueReservedPartForTicket now tid note s)) = true ->
      exists t t',
        findTicket tid s = Some t
        /\ findTicket tid (snd (issueReservedPartForTicket now tid note s))
           = Some t'
        /\ partLink t' = partLink t
        /\ getPartIdFromTicket t' = getPartIdFromTicket t
        /\ getPartIdFromTicket t' <> None).
Proof.
  split; intros Hok.
  - destruct (release_ok_inv _ _ _ _ Hok)
      as (t & pid & pq & _ & Ht & Hl & _ & _ & _ & _ & Htk).
    destruct (link_after_update now (role s) tid "Reserva liberada" s t
                pid pq Ht Hl) as (t' & Hf & H1 & H2 & H3).
    exists t, t'. split; [exact Ht|]. unfold findTicket at 1.
    rewrite Htk. auto.
  - destruct (issue_ok_inv _ _ _ _ Hok)
      as (t & pid & pq & part & _ & Ht & Hl & _ & _ & _ & _ & _ & Htk).
    destruct (link_after_update now (role s) tid
                ("Refacción utilizada: " ++ part_name part
                 ++ " (x" ++ showZ (normQty pq) ++ ")") s t
                pid pq Ht Hl) as (t' & Hf & H1 & H2 & H3).
    exists t, t'. split; [exact Ht|]. unfold findTicket at 1.
    rewrite Htk. auto.
Qed.

Lemma part_link_survives_witness :
  let s1 := snd (reservePartForTicket 1 "T-1001" "P-005" 4 demoStore) in
  exists t t',
    findTicket "T-1001" s1 = Some t
    /\ findTicket "T-1001"
         (snd (issueReservedPartForTicket 2 "T-1001" None s1)) = Some t'
    /\ partLink t' = partLink t
    /\ getPartIdFromTicket t' = getPartIdFromTicket t
    /\ getPartIdFromTicket t' <> None.
Proof.
  intros s1.
  apply (proj2 (part_link_survives 2 "T-1001" None s1)).
  reflexivity.
Defined.
